(** * pogo-bot: the visual UI-automation core, embedded and verified

    A shallow embedding of [io_fast.py], [pogo_cv.py], [pogo_config.py] and
    [pogo_ui.py].  Python values are modelled as follows.

    - [bytes] are lists of [Byte.byte]; [int] is [Z] (or [N] where the source
      can only produce a non-negative value).
    - [float] is the kernel's binary64 ([PrimFloat.float]), so that
      [int(W * 0.85)] rounds exactly as CPython rounds it.
    - Wall-clock readings and sleep durations are exact rationals (seconds).
    - A call either returns, raises, or is still looping when the fuel given
      to a [while True] loop is used up.
    - OpenCV ([cv2]) is outside the repository: its entry points are the
      fields of the class [Cv2]. *)

From Stdlib Require Import ZArith List Bool Lia QArith Lqa Floats.
From Stdlib.Strings Require Import Byte.
From stdpp Require Import gmap strings pretty.
Import ListNotations.

Set Warnings "-inexact-float".
#[local] Open Scope Z_scope.

(* ===================================================================== *)
(** ** The Python runtime the sources rely on *)
(* ===================================================================== *)

Module Py.

(** The exception classes that the modelled code can raise. *)
Inductive exn : Type :=
| RuntimeError
| KeyError
| FileNotFoundError
| ZeroDivisionError
| OverflowError
| ValueError
| cv2_error.

(** A pure computation: a value or an exception. *)
Inductive except (A : Type) : Type :=
| Ok (a : A)
| Err (e : exn).
Arguments Ok {A} a.
Arguments Err {A} e.

Definition ebind {A B} (k : A -> except B) (m : except A) : except B :=
  match m with
  | Ok a => k a
  | Err e => Err e
  end.

(** [float(z)] as CPython does it for an [int] operand of a mixed
    operation: round to nearest even, [OverflowError] past the range. *)
Definition float_of_int (z : Z) : except float :=
  let f := SF2Prim (SpecFloat.binary_normalize 53 1024 z 0 false) in
  if PrimFloat.is_infinity f then Err OverflowError else Ok f.

(** [int(f)]: truncation toward zero; [ValueError] on NaN and
    [OverflowError] on an infinity. *)
Definition int_of_float (f : float) : except Z :=
  match Prim2SF f with
  | SpecFloat.S754_nan => Err ValueError
  | SpecFloat.S754_infinity _ => Err OverflowError
  | SpecFloat.S754_zero _ => Ok 0
  | SpecFloat.S754_finite s m e =>
      let mag := if 0 <=? e then Z.pos m * 2 ^ e else Z.pos m / 2 ^ (- e) in
      Ok (if s then - mag else mag)
  end.

(** [z * f] with [z : int], [f : float]. *)
Definition int_mul_float (z : Z) (f : float) : except float :=
  ebind (fun zf => Ok (zf * f)%float) (float_of_int z).

(** [z / f] with [z : int], [f : float]: the operand is converted first,
    then a zero divisor (of either sign) raises. *)
Definition int_div_float (z : Z) (f : float) : except float :=
  ebind (fun zf =>
           if (f =? 0)%float then Err ZeroDivisionError else Ok (zf / f)%float)
        (float_of_int z).

(** What a call that may loop has done once [fuel] iterations are spent. *)
Inductive outcome (A : Type) : Type :=
| Return (a : A)
| Raise (e : exn)
| Running.
Arguments Return {A} a.
Arguments Raise {A} e.
Arguments Running {A}.

Definition of_except {A} (m : except A) : outcome A :=
  match m with
  | Ok a => Return a
  | Err e => Raise e
  end.

End Py.
Import Py.

(** [x ← m; k] sequences pure computations, stopping at the first
    exception. *)
#[export] Instance except_bind : MBind except := @ebind.
#[export] Instance except_ret : MRet except := @Ok.

(* ===================================================================== *)
(** ** io_fast.py *)
(* ===================================================================== *)

Module IoFast.

Definition bytes := list byte.

#[export] Instance byte_eq_dec : EqDecision byte := Byte.byte_eq_dec.

(** [b"\x89PNG\r\n\x1a\n"] *)
Definition PNG_SIG : bytes := [x89; x50; x4e; x47; x0d; x0a; x1a; x0a].

(** [b"IEND"] *)
Definition IEND : bytes := [x49; x45; x4e; x44].

(** [out.read(n)] on the buffered pipe of the capture process: the next
    [n] bytes, fewer only when the stream ends first.  The pipe is the list
    of the bytes it still has to deliver. *)
Definition read (n : nat) (out : bytes) : bytes * bytes :=
  (take n out, drop n out).

(** [int.from_bytes(b, "big")] *)
Definition int_from_bytes_big (b : bytes) : N :=
  fold_left (fun acc x => (acc * 256 + Byte.to_N x)%N) b 0%N.

(** [not b] for a bytes object. *)
Definition is_empty (b : bytes) : bool :=
  match b with
  | [] => true
  | _ => false
  end.

(** The [while True] loop of [PngStream.next_png]; [None] when the fuel
    does not cover the loop. *)
Fixpoint next_png_loop (fuel : nat) (buf out : bytes)
  : option (option bytes * bytes) :=
  match fuel with
  | O => None
  | S fuel =>
      let '(raw_len, out) := read 4 out in
      if is_empty raw_len then Some (None, out) else
      let length := int_from_bytes_big raw_len in
      let '(ctype, out) := read 4 out in
      let '(data, out) := read (N.to_nat length) out in
      let '(crc, out) := read 4 out in
      if is_empty ctype || is_empty data || is_empty crc
      then Some (None, out)
      else
        let buf := buf ++ raw_len ++ ctype ++ data ++ crc in
        if bool_decide (ctype = IEND) then Some (Some buf, out)
        else next_png_loop fuel buf out
  end.

(** [PngStream.next_png], as a function of the pipe: the frame (or [None])
    and the pipe after the call.  [self.p.stdout] is never [None] for a
    process opened with [stdout=PIPE].  Every iteration of the loop that
    continues has read at least one byte, so [length out] iterations
    suffice (see [next_png_loop_total]). *)
Definition next_png (out : bytes) : option bytes * bytes :=
  let '(sig, out) := read 8 out in
  if is_empty sig then (None, out) else
  if negb (bool_decide (sig = PNG_SIG)) then (None, out) else
  match next_png_loop (S (length out)) sig out with
  | Some r => r
  | None => (None, out)
  end.

(** *** PNG records, as the container format lays them out *)

Record chunk : Type := Chunk {
  chunk_type : bytes;
  chunk_data : bytes;
  chunk_crc : bytes
}.

(** The 4-byte big-endian length field. *)
Definition be32 (n : N) : bytes :=
  match Byte.of_N (n / 16777216 mod 256), Byte.of_N (n / 65536 mod 256),
        Byte.of_N (n / 256 mod 256), Byte.of_N (n mod 256) with
  | Some a, Some b, Some c, Some d => [a; b; c; d]
  | _, _, _, _ => []
  end.

Definition encode_chunk (c : chunk) : bytes :=
  be32 (N.of_nat (length (chunk_data c)))
    ++ chunk_type c ++ chunk_data c ++ chunk_crc c.

Definition wf_chunk (c : chunk) : Prop :=
  length (chunk_type c) = 4%nat /\ length (chunk_crc c) = 4%nat
  /\ (N.of_nat (length (chunk_data c)) < 4294967296)%N.

(** A chunk before the terminal one: any type but [IEND]. *)
Definition body_chunk (c : chunk) : Prop :=
  wf_chunk c /\ chunk_type c <> IEND.

(** The terminal chunk of a PNG file: type [IEND], no payload. *)
Definition iend_chunk (crc : bytes) : chunk := Chunk IEND [] crc.

(** One complete record: signature, chunks, terminal [IEND]. *)
Definition png_record (cs : list chunk) (iend_crc : bytes) : bytes :=
  PNG_SIG ++ concat (map encode_chunk cs) ++ encode_chunk (iend_chunk iend_crc).

(** A 1x1 RGB image as [screencap -p] would emit it: IHDR, IDAT, IEND. *)
Definition one_pixel_png : bytes :=
  png_record
    [ Chunk [x49; x48; x44; x52]
            [x00; x00; x00; x01; x00; x00; x00; x01; x08; x02; x00; x00; x00]
            [x90; x77; x53; xde];
      Chunk [x49; x44; x41; x54]
            [x08; xd7; x63; xf8; xcf; xc0; x00; x00; x03; x01; x01; x00]
            [x18; xdd; x8d; xb0] ]
    [xae; x42; x60; x82].

End IoFast.

(* ===================================================================== *)
(** ** pogo_config.py *)
(* ===================================================================== *)

Module PogoConfig.

(** An on-screen anchor image and its match threshold. *)
Record Locator : Type := MkLocator {
  file : string;
  thresh : float
}.

(** [Locator(name)] with the default threshold. *)
Definition locator (name : string) : Locator := MkLocator name 0.86.

(** A swipe in screen-percentage coordinates ([end] is [stop] here, the
    source's field name being a keyword). *)
Record Swipe : Type := MkSwipe {
  start : float * float;
  stop : float * float;
  duration_ms : Z
}.

(** Default wait times (in seconds) after various actions. *)
Record Waits : Type := MkWaits {
  after_launch : Q;
  after_menu_open : Q;
  after_list_open : Q;
  after_open_detail : Q;
  after_three_bars : Q;
  after_open_appraise : Q;
  after_tap_advance : Q;
  after_tag_open : Q;
  after_apply_tag : Q;
  after_close_tag : Q;
  after_swipe : Q
}.

(** [Waits()] *)
Definition default_waits : Waits :=
  MkWaits 8 1 1 (7 # 10) (5 # 10) (9 # 10) (5 # 10) (5 # 10) (4 # 10)
    (4 # 10) (7 # 10).

(** The part of [UiPack] the engine reads: the locator groups are plain
    [Locator] records handed to the engine one at a time. *)
Record UiPack : Type := MkUiPack {
  asset_dir : string;
  swipes : gmap string Swipe;
  waits : Waits
}.

Definition default_pack (asset_dir : string) : UiPack :=
  MkUiPack asset_dir
    {[ "next_pokemon" := MkSwipe (0.85, 0.50)%float (0.20, 0.50)%float 280 ]}
    default_waits.

End PogoConfig.
Import PogoConfig.

(* ===================================================================== *)
(** ** pogo_cv.py *)
(* ===================================================================== *)

Module PogoCv.

(** A raster: [shape[:2]] and the samples. *)
Record ndarray : Type := NdArray {
  rows : Z;
  cols : Z;
  samples : list Z
}.

Definition shape (a : ndarray) : Z * Z := (rows a, cols a).

Inductive interpolation : Type := INTER_AREA | INTER_LINEAR.

(** The OpenCV calls of the sources.  [imdecode] and [imread] (both with
    [IMREAD_COLOR]) answer [None] for bytes or a file that are not an
    image; the others raise [cv2.error] on arguments they reject.
    [matchTemplate] is the [TM_CCOEFF_NORMED] method. *)
Class Cv2 : Type := {
  imdecode : IoFast.bytes -> option ndarray;
  imread : string -> option ndarray;
  resize : ndarray -> Z * Z -> interpolation -> except ndarray;
  matchTemplate : ndarray -> ndarray -> except ndarray;
  minMaxLoc : ndarray -> except (float * float * (Z * Z) * (Z * Z))
}.

(** [os.path.join(a, b)] on a POSIX host. *)
Definition os_path_join (a b : string) : string :=
  if String.prefix "/" b then b
  else if bool_decide (a = "") || String.prefix "/" (String.rev a) then a +:+ b
  else a +:+ "/" +:+ b.

(** [(x, y, w, h, confidence)] *)
Definition MatchResult : Type := Z * Z * Z * Z * float.

(** [m[-1]] *)
Definition confidence (m : MatchResult) : float := snd m.

Definition default_scales : list float := [1.0; 0.9; 1.1; 0.8; 1.2]%float.

Section WithCv2.
Context `{Cv2}.

Definition _tpl_path (cfg : UiPack) (loc : Locator) : string :=
  os_path_join (asset_dir cfg) (file loc).

Definition load_template (cfg : UiPack) (loc : Locator) : except ndarray :=
  match imread (_tpl_path cfg loc) with
  | None => Err FileNotFoundError
  | Some img => Ok img
  end.

(** The body of [for s in scales] in [match_template], threading
    [best]. *)
Fixpoint match_template_loop (scr tpl : ndarray) (h w : Z)
    (best : option MatchResult) (scales : list float)
  : except (option MatchResult) :=
  match scales with
  | [] => Ok best
  | s :: scales =>
      ws ← int_mul_float w s; iw ← int_of_float ws;
      hs ← int_mul_float h s; ih ← int_of_float hs;
      rs ← resize scr (Z.max 1 iw, Z.max 1 ih)
             (if (s <? 1)%float then INTER_AREA else INTER_LINEAR);
      res ← matchTemplate rs tpl;
      '(_, max_val, _, max_loc) ← minMaxLoc res;
      best ← (if match best with
                 | None => true
                 | Some b => (confidence b <? max_val)%float
                 end
              then
                let '(x, y) := max_loc in
                let '(th, tw) := shape tpl in
                xs ← int_div_float x s; bx0 ← int_of_float xs;
                ys ← int_div_float y s; by0 ← int_of_float ys;
                tws ← int_div_float tw s; bw ← int_of_float tws;
                ths ← int_div_float th s; bh ← int_of_float ths;
                Ok (Some (bx0, by0, bw, bh, max_val))
              else Ok best);
      match_template_loop scr tpl h w best scales
  end.

Definition match_template (scr tpl : ndarray) (thresh : float)
    (scales : list float) : except (option MatchResult) :=
  let '(h, w) := shape scr in
  best ← match_template_loop scr tpl h w None scales;
  match best with
  | Some b => if (thresh <=? confidence b)%float then Ok (Some b) else Ok None
  | None => Ok None
  end.

Definition find_locator (cfg : UiPack) (loc : Locator) (screen : ndarray)
  : except (option MatchResult) :=
  tpl ← load_template cfg loc;
  match_template screen tpl (thresh loc) default_scales.

(** *** What the loop measures, named for the statements below *)

(** The first half of a turn: resize by [s], correlate, take the global
    maximum and where it is. *)
Definition scan_scale (scr tpl : ndarray) (s : float)
  : except (float * (Z * Z)) :=
  let '(h, w) := shape scr in
  ws ← int_mul_float w s; iw ← int_of_float ws;
  hs ← int_mul_float h s; ih ← int_of_float hs;
  rs ← resize scr (Z.max 1 iw, Z.max 1 ih)
         (if (s <? 1)%float then INTER_AREA else INTER_LINEAR);
  res ← matchTemplate rs tpl;
  '(_, max_val, _, max_loc) ← minMaxLoc res;
  Ok (max_val, max_loc).

(** The second half, run only for a new best: back to the coordinates of
    the unscaled frame. *)
Definition to_frame (tpl : ndarray) (s : float) (max_val : float)
    (max_loc : Z * Z) : except MatchResult :=
  let '(x, y) := max_loc in
  let '(th, tw) := shape tpl in
  xs ← int_div_float x s; bx0 ← int_of_float xs;
  ys ← int_div_float y s; by0 ← int_of_float ys;
  tws ← int_div_float tw s; bw ← int_of_float tws;
  ths ← int_div_float th s; bh ← int_of_float ths;
  Ok (bx0, by0, bw, bh, max_val).

(** Scale [s] measures [m] on this frame: both halves go through and the
    confidence is a number. *)
Definition measured (scr tpl : ndarray) (s : float) (m : MatchResult)
  : Prop :=
  exists max_loc,
    scan_scale scr tpl s = Ok (confidence m, max_loc)
    /\ to_frame tpl s (confidence m) max_loc = Ok m
    /\ PrimFloat.is_nan (confidence m) = false.

End WithCv2.

(** [best is None or max_val > best[-1]]: the first-seen maximum stays. *)
Definition keep_best (best : option MatchResult) (m : MatchResult)
  : option MatchResult :=
  match best with
  | None => Some m
  | Some b => if (confidence b <? confidence m)%float then Some m else Some b
  end.

Definition center_of (bbox : MatchResult) : Z * Z :=
  let '(x, y, w, h, _) := bbox in
  (x + w `div` 2, y + h `div` 2).

End PogoCv.
Import PogoCv.

(* ===================================================================== *)
(** ** pogo_ui.py *)
(* ===================================================================== *)

Module PogoUi.

(** What the engine asks of its frame source [ps]: one method,
    [ps.next_png()], giving a frame's bytes or [None] and moving the
    source on. *)
Class PngSource (PS : Type) : Type :=
  source_next_png : PS -> option IoFast.bytes * PS.

(** [io_fast.PngStream] over the pipe of the capture process. *)
#[export] Instance PngStream : PngSource IoFast.bytes := IoFast.next_png.

(** Wall-clock seconds spent outside [time.sleep]: in [ps.next_png()]
    called in a given state of the source (blocked on the pipe, decoding
    what came), and in [find_locator] on a given frame (loading the
    template, matching it at every scale). *)
Class Timing (PS : Type) : Type := {
  pull_time : PS -> Q;
  match_time : ndarray -> Q
}.

Section Engine.
Context {PS : Type} `{Cv2} `{PngSource PS} `{Timing PS}.

(** The objects the functions share: the frame source, the lines written
    so far to the stdin of the persistent [adb shell], and the clock. *)
Record World : Type := MkWorld {
  ps : PS;
  shell : list string;
  clock : Q
}.

(** A call: an outcome and the world it leaves behind. *)
Definition io (A : Type) : Type := World -> outcome A * World.

Definition io_bind {A B} (k : A -> io B) (m : io A) : io B :=
  fun w =>
    match m w with
    | (Return a, w') => k a w'
    | (Raise e, w') => (Raise e, w')
    | (Running, w') => (Running, w')
    end.

#[local] Instance io_mbind : MBind io := @io_bind.
#[local] Instance io_mret : MRet io := fun A a w => (Return a, w).

Definition raise {A} (e : exn) : io A := fun w => (Raise e, w).
Definition running {A} : io A := fun w => (Running, w).

Definition elapse (d : Q) (w : World) : World :=
  MkWorld (ps w) (shell w) (clock w + d)%Q.

(** A pure computation, and one that takes [d] seconds. *)
Definition lift {A} (m : except A) : io A :=
  fun w => (of_except m, w).

Definition compute {A} (d : Q) (m : except A) : io A :=
  fun w => (of_except m, elapse d w).

(** [time.time()] *)
Definition time_time : io Q := fun w => (Return (clock w), w).

(** [time.sleep(d)]: [ValueError] on a negative length. *)
Definition time_sleep (d : Q) : io unit :=
  fun w =>
    if Qlt_le_dec d 0 then (Raise ValueError, w)
    else (Return tt, elapse d w).

(** [ps.next_png()] *)
Definition ps_next_png : io (option IoFast.bytes) :=
  fun w =>
    let '(png, ps') := source_next_png (ps w) in
    (Return png, MkWorld ps' (shell w) (clock w + pull_time (ps w))%Q).

(** [ShellSession.send]: one line on the shell's stdin, nothing read
    back. *)
Definition send (cmd : string) : io unit :=
  fun w => (Return tt, MkWorld (ps w) (shell w ++ [cmd]) (clock w)).

(** [ShellSession.tap] *)
Definition tap (x y : Z) : io unit :=
  send ("input tap " +:+ pretty x +:+ " " +:+ pretty y).

(** [ShellSession.swipe] *)
Definition swipe (x1 y1 x2 y2 dur_ms : Z) : io unit :=
  send ("input swipe " +:+ pretty x1 +:+ " " +:+ pretty y1 +:+ " "
          +:+ pretty x2 +:+ " " +:+ pretty y2 +:+ " " +:+ pretty dur_ms).

(** [io_fast.decode_png]: never returns [None], raises instead. *)
Definition decode_png (png_bytes : IoFast.bytes) : except ndarray :=
  match imdecode png_bytes with
  | None => Err RuntimeError
  | Some img => Ok img
  end.

(** [_next_frame]: [decode_png] returns an image or raises, so the test
    [img is not None] always passes and only a [None] from
    [ps.next_png()] makes the loop go round. *)
Fixpoint _next_frame (fuel : nat) : io ndarray :=
  match fuel with
  | O => running
  | S fuel =>
      png ← ps_next_png;
      match png with
      | None => _next_frame fuel
      | Some png => lift (decode_png png)
      end
  end.

(** The [while time.time() - t0 < timeout] loop of [wait_and_find]. *)
Fixpoint wait_and_find_loop (fuel : nat) (cfg : UiPack) (locator : Locator)
    (t0 timeout poll : Q) : io (option MatchResult * option ndarray) :=
  match fuel with
  | O => running
  | S fuel' =>
      t ← time_time;
      if Qlt_le_dec (t - t0) timeout then
        frame ← _next_frame fuel;
        hit ← compute (match_time frame) (find_locator cfg locator frame);
        match hit with
        | Some hit => mret (Some hit, Some frame)
        | None =>
            time_sleep poll;;
            wait_and_find_loop fuel' cfg locator t0 timeout poll
        end
      else mret (None, None)
  end.

Definition wait_and_find (fuel : nat) (cfg : UiPack) (locator : Locator)
    (timeout poll : Q) : io (option MatchResult * option ndarray) :=
  t0 ← time_time;
  wait_and_find_loop fuel cfg locator t0 timeout poll.

(** [if wait_after: time.sleep(wait_after)] *)
Definition sleep_if (wait_after : Q) : io unit :=
  if Qeq_bool wait_after 0 then mret tt else time_sleep wait_after.

Definition tap_locator (fuel : nat) (cfg : UiPack) (locator : Locator)
    (wait_after : Q) : io bool :=
  '(hit, frame) ← wait_and_find fuel cfg locator 3 (12 # 100);
  match hit with
  | None => mret false
  | Some hit =>
      let '(x, y) := center_of hit in
      tap x y;;
      sleep_if wait_after;;
      mret true
  end.

Definition exists_ (fuel : nat) (cfg : UiPack) (locator : Locator)
    (timeout : Q) : io bool :=
  '(hit, _) ← wait_and_find fuel cfg locator timeout (12 # 100);
  mret (match hit with Some _ => true | None => false end).

Definition _abs_points_from_swipe (frame : ndarray) (swipe : Swipe)
  : except (Z * Z * Z * Z) :=
  let '(H, W) := shape frame in
  sxf ← int_mul_float W (fst (start swipe)); sx ← int_of_float sxf;
  syf ← int_mul_float H (snd (start swipe)); sy ← int_of_float syf;
  exf ← int_mul_float W (fst (stop swipe)); ex ← int_of_float exf;
  eyf ← int_mul_float H (snd (stop swipe)); ey ← int_of_float eyf;
  Ok (sx, sy, ex, ey).

Definition single_tap_center (fuel : nat) (wait_after : Q) : io unit :=
  frame ← _next_frame fuel;
  let '(H, W) := shape frame in
  y ← lift (hf ← int_mul_float H 0.65; int_of_float hf);
  tap (W `div` 2) y;;
  sleep_if wait_after.

Definition swipe_by_name (fuel : nat) (cfg : UiPack) (key : string)
    (wait_after : Q) : io unit :=
  frame ← _next_frame fuel;
  match swipes cfg !! key with
  | None => raise KeyError
  | Some sw =>
      '(sx, sy, ex, ey) ← lift (_abs_points_from_swipe frame sw);
      swipe sx sy ex ey (duration_ms sw);;
      sleep_if wait_after
  end.

(** *** Named for the statements below *)

(** From every state in [good] the source yields, after finitely many
    calls, a frame that decodes and on which the locator is not found,
    and is in [good] again; pulling that frame and matching against it
    takes between [busy_lo] and [busy_hi] seconds. *)
Definition keeps_missing (cfg : UiPack) (locator : Locator)
    (good : PS -> Prop) (busy_lo busy_hi : Q) : Prop :=
  forall w : World,
    good (ps w) ->
    exists fuel frame w1,
      _next_frame fuel w = (Return frame, w1)
      /\ good (ps w1)
      /\ find_locator cfg locator frame = Ok None
      /\ (busy_lo <= clock w1 + match_time frame - clock w <= busy_hi)%Q.

(** [n] turns of the loop last at least [n * d] seconds when one lasts
    at least [d]. *)
Fixpoint turns (n : nat) (d : Q) : Q :=
  match n with
  | O => 0
  | S n => turns n d + d
  end.

End Engine.

Arguments World PS : clear implicits.
Arguments io PS A : clear implicits.

End PogoUi.
Import PogoUi.

(* ===================================================================== *)
(** ** Shapes of records, for the statements on [next_png] *)
(* ===================================================================== *)

Module Records.
Import IoFast.

(** A chunk before the terminal one that carries a payload. *)
Definition payload_chunk (c : chunk) : Prop :=
  body_chunk c /\ chunk_data c <> [].

(** A terminal chunk as [next_png] takes it: type [IEND], a payload, and a
    checksum of one to four bytes. *)
Definition final_chunk (c : chunk) : Prop :=
  chunk_type c = IEND
  /\ chunk_data c <> []
  /\ (N.of_nat (length (chunk_data c)) < 4294967296)%N
  /\ (1 <= length (chunk_crc c) <= 4)%nat.

(** Signature, chunks, terminal chunk. *)
Definition framed (cs : list chunk) (c : chunk) : bytes :=
  PNG_SIG ++ concat (map encode_chunk cs) ++ encode_chunk c.

(** A PNG file whose chunks before [IEND] all carry a payload, as a pair of
    its chunks and the checksum of its [IEND]. *)
Definition png_file (f : list chunk * bytes) : Prop :=
  Forall payload_chunk f.1 /\ length f.2 = 4%nat.

End Records.
Import Records.

(* ===================================================================== *)
(** ** pogo_cv.py and pogo_ui.py: signatures and the end of a list *)
(* ===================================================================== *)

Module Scroll.
Import IoFast.

(** Regions used to generate signatures for detecting the end of lists, as
    fractions [(x, y, w, h)] of the screen. *)
Record SignatureRects : Type := MkSignatureRects {
  cp : float * float * float * float;
  weight : float * float * float * float
}.

(** [UiPack] together with its field [sig_rects]; a [ListPack] is read as
    the [UiPack] wherever the functions above take one. *)
Record ListPack : Type := MkListPack {
  pack :> UiPack;
  sig_rects : SignatureRects
}.

(** [default_pack], with the signature regions it sets. *)
Definition default_list_pack (asset_dir : string) : ListPack :=
  MkListPack (default_pack asset_dir)
    (MkSignatureRects (0.42, 0.09, 0.22, 0.06)%float
                      (0.33, 0.62, 0.42, 0.08)%float).

(** What the sources ask of numpy and hashlib: the basic slice
    [a[y0:y1, x0:x1]] (which clamps and never raises), [a.tobytes()], and
    [blake2b(data, digest_size=n).digest()]. *)
Class Numpy : Type := {
  getslice : ndarray -> Z * Z -> Z * Z -> ndarray;
  tobytes : ndarray -> IoFast.bytes
}.

Class Hashlib : Type :=
  blake2b_digest : nat -> IoFast.bytes -> IoFast.bytes.

Section WithLibraries.
Context {PS : Type} `{Cv2} `{Numpy} `{Hashlib} `{PngSource PS} `{Timing PS}.

Definition crop_percent (screen : ndarray)
    (rect : float * float * float * float) : except ndarray :=
  let '(H, W) := shape screen in
  let '(x, y, w, h) := rect in
  x0f ← int_mul_float W x; x0 ← int_of_float x0f;
  y0f ← int_mul_float H y; y0 ← int_of_float y0f;
  x1f ← int_mul_float W (x + w)%float; x1 ← int_of_float x1f;
  y1f ← int_mul_float H (y + h)%float; y1 ← int_of_float y1f;
  Ok (getslice screen (y0, y1) (x0, x1)).

Definition signature_bytes (img : ndarray) : except IoFast.bytes :=
  small ← resize img (160, 90) INTER_AREA;
  Ok (blake2b_digest 16 (tobytes small)).

Definition signatures_from_frame (cfg : ListPack) (screen : ndarray)
  : except (IoFast.bytes * IoFast.bytes) :=
  cp_img ← crop_percent screen (cp (sig_rects cfg));
  wt_img ← crop_percent screen (weight (sig_rects cfg));
  cp_sig ← signature_bytes cp_img;
  wt_sig ← signature_bytes wt_img;
  Ok (cp_sig, wt_sig).

#[local] Existing Instance PogoUi.io_mbind.
#[local] Existing Instance PogoUi.io_mret.

Definition end_of_list_after_swipe (fuel : nat) (cfg : ListPack)
    (key : string) : io PS bool :=
  frame ← _next_frame fuel;
  before ← lift (signatures_from_frame cfg frame);
  swipe_by_name fuel cfg key (after_swipe (waits cfg));;
  frame' ← _next_frame fuel;
  after ← lift (signatures_from_frame cfg frame');
  mret (bool_decide (before = after)).

End WithLibraries.

End Scroll.
Import Scroll.

(* ===================================================================== *)
(** ** A bench: a stand-in for OpenCV, frames, sources and clocks *)
(* ===================================================================== *)

Module Bench.
Import IoFast.

(** A record that [next_png] does hand over: its [IEND] chunk carries one
    byte of payload, which tells the bench decoder what the screen shows. *)
Definition frame_png (tag : byte) : bytes :=
  PNG_SIG ++ encode_chunk (Chunk IEND [tag] [xae; x42; x60; x82]).

Definition corrupt_png : bytes := frame_png x00.
Definition blank_png : bytes := frame_png x01.
Definition button_png : bytes := frame_png x02.

(** 1080x2400 screens: one blank, one showing the button. *)
Definition blank_screen : ndarray := NdArray 2400 1080 [].
Definition button_screen : ndarray := NdArray 2400 1080 [1].

(** Templates: the button (60 wide, 40 high) and a single pixel. *)
Definition button_tpl : ndarray := NdArray 40 60 [].
Definition dot_tpl : ndarray := NdArray 1 1 [].

(** The correlation peak the bench reports for the button screen, by the
    width of the resized frame; a blank screen peaks at 0.1. *)
Definition peak (resized_width : Z) : float * (Z * Z) :=
  if resized_width =? 1080 then (0.95%float, (500, 1200))
  else if resized_width =? 972 then (0.80%float, (450, 1080))
  else if resized_width =? 1188 then (0.70%float, (550, 1320))
  else if resized_width =? 864 then (0.60%float, (400, 960))
  else if resized_width =? 1296 then (0.50%float, (600, 1440))
  else (0.30%float, (0, 0)).

#[export] Instance cv2 : Cv2 := {|
  imdecode png :=
    if bool_decide (png = corrupt_png) then None
    else if bool_decide (png = button_png) then Some button_screen
    else Some blank_screen;
  imread path :=
    if bool_decide (path = "./assets/hamburger_icon.png")
    then Some button_tpl else None;
  resize a dsize _ := Ok (NdArray (snd dsize) (fst dsize) (samples a));
  matchTemplate rs tpl :=
    if (rows tpl <=? rows rs) && (cols tpl <=? cols rs)
    then Ok (NdArray (rows rs - rows tpl + 1) (cols rs - cols tpl + 1)
               (cols rs :: samples rs))
    else Err cv2_error;
  minMaxLoc res :=
    match samples res with
    | [width; 1] =>
        let '(c, loc) := peak width in Ok ((-0.2)%float, c, (0, 0), loc)
    | _ => Ok ((-0.2)%float, 0.1%float, (0, 0), (0, 0))
    end
|}.

(** What the five default scales measure for the button on the button
    screen, in the order of [default_scales]. *)
Definition button_measured : list MatchResult :=
  [ (500, 1200, 60, 40, 0.95%float);
    (500, 1200, 66, 44, 0.80%float);
    (499, 1200, 54, 36, 0.70%float);
    (500, 1200, 75, 50, 0.60%float);
    (500, 1200, 50, 33, 0.50%float) ].

Definition cfg : UiPack := default_pack "./assets".
Definition hamburger : Locator := locator "hamburger_icon.png".

(** A source that never runs dry: every call yields the same frame. *)
Definition endless (png : bytes) : PngSource nat :=
  fun n => (Some png, S n).

(** Clocks: nothing but [time.sleep] takes time; or a pull takes half a
    second and a match a quarter; or every pull blocks for ten seconds. *)
Definition instant {PS} : Timing PS :=
  {| pull_time _ := 0%Q; match_time _ := 0%Q |}.
Definition brisk {PS} : Timing PS :=
  {| pull_time _ := (1 # 2)%Q; match_time _ := (1 # 4)%Q |}.
Definition sluggish {PS} : Timing PS :=
  {| pull_time _ := 10%Q; match_time _ := 0%Q |}.

(** A pipe holding a blank screen, then the button screen; and a pipe
    whose first record does not decode. *)
Definition two_frames : World IoFast.bytes :=
  MkWorld (blank_png ++ button_png) [] 0.
Definition corrupt_first : World IoFast.bytes :=
  MkWorld (corrupt_png ++ blank_png) [] 0.

(** The endless source of blank screens, at its start. *)
Definition blank_forever : World nat := MkWorld 0%nat [] 0.

End Bench.

Module Bench2.
Import IoFast Bench.

(** A frame record cut two bytes into the checksum of its [IEND] chunk. *)
Definition cut_chunk : chunk := Chunk IEND [x01] [xae; x42].

(** The 1x1 image of [one_pixel_png], as chunks and [IEND] checksum. *)
Definition one_pixel_file : list chunk * bytes :=
  ([ Chunk [x49; x48; x44; x52]
           [x00; x00; x00; x01; x00; x00; x00; x01; x08; x02; x00; x00; x00]
           [x90; x77; x53; xde];
     Chunk [x49; x44; x41; x54]
           [x08; xd7; x63; xf8; xcf; xc0; x00; x00; x03; x01; x01; x00]
           [x18; xdd; x8d; xb0] ],
   [xae; x42; x60; x82]).

(** What the five default scales measure on the blank screen: the same
    confidence everywhere. *)
Definition blank_measured : list MatchResult :=
  [ (0, 0, 60, 40, 0.1%float);
    (0, 0, 66, 44, 0.1%float);
    (0, 0, 54, 36, 0.1%float);
    (0, 0, 75, 50, 0.1%float);
    (0, 0, 50, 33, 0.1%float) ].

(** The button as scale 1.0 finds it on the button screen. *)
Definition button_hit : MatchResult := (500, 1200, 60, 40, 0.95%float).

(** A locator whose template file is not among the assets. *)
Definition missing : Locator := locator "no_such_icon.png".

(** Slices keep the samples; the bytes of an array tell a blank screen from
    one with the button; the digest is the data cut or padded to size. *)
#[export] Instance numpy : Numpy := {|
  getslice a ys xs := NdArray (ys.2 - ys.1) (xs.2 - xs.1) (samples a);
  tobytes a := match samples a with [] => [x00] | _ => [x01] end
|}.

#[export] Instance hashlib : Hashlib :=
  fun n data => take n (data ++ repeat x00 n).

Definition list_cfg : ListPack := default_list_pack "./assets".

(** A pipe with three blank screens, and one with two. *)
Definition three_blank : World bytes :=
  MkWorld (blank_png ++ blank_png ++ blank_png) [] 0.
Definition two_blank : World bytes :=
  MkWorld (blank_png ++ blank_png) [] 0.

(** Runs on the pipe [two_frames] with nothing but sleeps taking time. *)
Definition find_run : outcome (option MatchResult * option ndarray) * World bytes :=
  @wait_and_find _ _ PngStream instant 5 cfg hamburger 3 (12 # 100) two_frames.
Definition exists_run : outcome bool * World bytes :=
  @exists_ _ _ PngStream instant 5 cfg hamburger (12 # 10) two_frames.
Definition tap_run : outcome bool * World bytes :=
  @tap_locator _ _ PngStream instant 5 cfg hamburger (1 # 2) two_frames.

(** The probe on three blank screens. *)
Definition probe_run : outcome bool * World bytes :=
  @end_of_list_after_swipe _ _ _ _ PngStream instant 1 list_cfg
    "next_pokemon" three_blank.

End Bench2.
(* ===================================================================== *)
(** ** Frame transport: [PngStream.next_png] *)
(* ===================================================================== *)

Section NextPng.
Import IoFast.

Lemma read_app (a k : bytes) (n : nat) :
  n = length a -> read n (a ++ k) = (a, k).
Proof.
  intros ->. unfold read. now rewrite take_app_length, drop_app_length.
Qed.

Lemma be32_spec (n : N) :
  (n < 4294967296)%N ->
  length (be32 n) = 4%nat /\ int_from_bytes_big (be32 n) = n.
Proof.
  intros Hn. unfold be32.
  assert (Hb : forall x, exists b, Byte.of_N (x mod 256) = Some b).
  { intros x. destruct (Byte.of_N (x mod 256)) as [b|] eqn:E; eauto.
    apply Byte.of_N_None_iff in E.
    pose proof (N.mod_upper_bound x 256). lia. }
  destruct (Hb (n / 16777216)%N) as [a Ea], (Hb (n / 65536)%N) as [b Eb],
    (Hb (n / 256)%N) as [c Ec], (Hb n) as [d Ed].
  rewrite Ea, Eb, Ec, Ed. split; [reflexivity|].
  apply Byte.to_of_N in Ea, Eb, Ec, Ed.
  unfold int_from_bytes_big; simpl. rewrite Ea, Eb, Ec, Ed.
  change 16777216%N with (256 * 256 * 256)%N.
  change 65536%N with (256 * 256)%N.
  rewrite <- !N.Div0.div_div.
  pose proof (N.div_mod n 256).
  pose proof (N.div_mod (n / 256) 256).
  pose proof (N.div_mod (n / 256 / 256) 256).
  pose proof (N.mod_small (n / 256 / 256 / 256) 256).
  assert (n / 256 / 256 / 256 < 256)%N.
  { rewrite !N.Div0.div_div. apply N.Div0.div_lt_upper_bound. simpl. lia. }
  lia.
Qed.

Lemma is_empty_length (b : bytes) (n : nat) :
  length b = S n -> is_empty b = false.
Proof. now destruct b. Qed.

(** One turn of the loop on a complete chunk. *)
Lemma next_png_loop_chunk (fuel : nat) (buf rest : bytes) (c : chunk) :
  wf_chunk c ->
  next_png_loop (S fuel) buf (encode_chunk c ++ rest) =
    if is_empty (chunk_data c) then Some (None, rest)
    else if bool_decide (chunk_type c = IEND)
         then Some (Some (buf ++ encode_chunk c), rest)
         else next_png_loop fuel (buf ++ encode_chunk c) rest.
Proof.
  intros (Ht & Hc & Hd). destruct (be32_spec _ Hd) as [Hl Hv].
  unfold encode_chunk. cbn [next_png_loop]. rewrite <- !app_assoc.
  rewrite (read_app _ _ 4) by now rewrite Hl.
  rewrite (is_empty_length _ 3 Hl).
  rewrite (read_app _ _ 4) by now rewrite Ht.
  rewrite Hv, Nat2N.id, (read_app (chunk_data c)) by reflexivity.
  rewrite (read_app _ _ 4) by now rewrite Hc.
  rewrite (is_empty_length _ 3 Ht), (is_empty_length _ 3 Hc).
  rewrite orb_false_r. cbn [orb]. reflexivity.
Qed.

(** The fuel [next_png] hands to its loop always covers it: each turn that
    goes round again has taken at least one byte off the pipe. *)
Lemma next_png_loop_total (fuel : nat) (buf out : bytes) :
  (length out < fuel)%nat -> is_Some (next_png_loop fuel buf out).
Proof.
  revert buf out. induction fuel as [|fuel IH]; intros buf out Hlen; [lia|].
  cbn [next_png_loop]. unfold read.
  destruct (is_empty (take 4 out)) eqn:E1; [eauto|].
  destruct (is_empty _ || is_empty _ || is_empty _); [eauto|].
  destruct (bool_decide _); [eauto|].
  apply IH. rewrite !length_drop.
  destruct out; [discriminate E1|]. cbn [length] in *. lia.
Qed.

Lemma next_png_loop_fuel (fuel fuel' : nat) (buf out : bytes) r :
  next_png_loop fuel buf out = Some r -> (fuel <= fuel')%nat ->
  next_png_loop fuel' buf out = Some r.
Proof.
  revert fuel' buf out.
  induction fuel as [|fuel IH]; intros fuel' buf out Hr Hle; [discriminate|].
  destruct fuel' as [|fuel']; [lia|].
  cbn [next_png_loop] in *. unfold read in *.
  destruct (is_empty (take 4 out)); [assumption|].
  destruct (is_empty _ || is_empty _ || is_empty _); [assumption|].
  destruct (bool_decide _); [assumption|].
  apply IH; [assumption | lia].
Qed.

(** The loop on the chunks of a complete record, ending in the
    zero-length [IEND] chunk: whenever it ends, it ends with no frame. *)
Lemma next_png_loop_record (cs : list chunk) (crc rest : bytes) :
  Forall body_chunk cs -> length crc = 4%nat ->
  forall fuel buf r,
    next_png_loop fuel buf
      (concat (map encode_chunk cs) ++ encode_chunk (iend_chunk crc) ++ rest)
      = Some r ->
    fst r = None.
Proof.
  intros Hcs Hcrc.
  induction Hcs as [|c cs [Hc Hty] _ IH]; intros fuel buf r.
  - destruct fuel as [|fuel]; [discriminate|]. cbn [map concat app].
    rewrite next_png_loop_chunk
      by (repeat split; cbn; first [assumption | reflexivity | lia]).
    cbn. now intros [= <-].
  - destruct fuel as [|fuel]; [discriminate|]. cbn [map concat].
    rewrite <- app_assoc, next_png_loop_chunk by assumption.
    destruct (is_empty (chunk_data c)); [now intros [= <-]|].
    rewrite bool_decide_eq_false_2 by assumption. apply IH.
Qed.

(** C1 (the code departs from it).  A complete, well-formed PNG record ends
    in an [IEND] chunk with an empty payload; [next_png] reads that payload
    with [read(0)], takes the empty result for a closed stream and answers
    [None].  So on every stream that starts with a complete record the
    call yields no frame, instead of the record's bytes. *)
Theorem next_png_drops_complete_record (cs : list chunk) (crc rest : bytes) :
  Forall body_chunk cs -> length crc = 4%nat ->
  fst (next_png (png_record cs crc ++ rest)) = None.
Proof.
  intros Hcs Hcrc. unfold next_png, png_record.
  rewrite <- !app_assoc, (read_app PNG_SIG _ 8) by reflexivity.
  cbn [is_empty PNG_SIG]. rewrite bool_decide_eq_true_2 by reflexivity.
  cbn [negb].
  destruct (next_png_loop _ _ _) as [r|] eqn:E; [|reflexivity].
  eapply next_png_loop_record; eassumption.
Qed.

Lemma next_png_drops_complete_record_witness :
  Forall body_chunk
    [ Chunk [x49; x48; x44; x52]
            [x00; x00; x00; x01; x00; x00; x00; x01; x08; x02; x00; x00; x00]
            [x90; x77; x53; xde];
      Chunk [x49; x44; x41; x54]
            [x08; xd7; x63; xf8; xcf; xc0; x00; x00; x03; x01; x01; x00]
            [x18; xdd; x8d; xb0] ]
  /\ fst (next_png (one_pixel_png ++ one_pixel_png)) = None.
Proof.
  assert (Hcs : Forall body_chunk
    [ Chunk [x49; x48; x44; x52]
            [x00; x00; x00; x01; x00; x00; x00; x01; x08; x02; x00; x00; x00]
            [x90; x77; x53; xde];
      Chunk [x49; x44; x41; x54]
            [x08; xd7; x63; xf8; xcf; xc0; x00; x00; x03; x01; x01; x00]
            [x18; xdd; x8d; xb0] ]).
  { repeat constructor; cbn; first [lia | discriminate]. }
  split; [exact Hcs|].
  exact (next_png_drops_complete_record _ [xae; x42; x60; x82] one_pixel_png
           Hcs eq_refl).
Defined.

(** The record is consumed all the same: the pipe is left at the start of
    the next record, and the next call drops that one too. *)
Example next_png_one_pixel_twice :
  next_png (one_pixel_png ++ one_pixel_png) = (None, one_pixel_png)
  /\ next_png one_pixel_png = (None, []).
Proof. split; vm_compute; reflexivity. Qed.
End NextPng.
(* ===================================================================== *)
(** ** Comparisons of binary64 values *)
(* ===================================================================== *)

Section FloatOrder.
Import SpecFloat.

Ltac sf_cases :=
  repeat match goal with
    | x : spec_float |- _ => destruct x as [[]|[]| |[] ? ?]
    end;
  cbn; try first [discriminate | reflexivity | congruence].

Ltac cmp_cases :=
  change (PosDef.Pos.compare_cont Eq) with Pos.compare in *;
  repeat match goal with
    | |- context [(?a ?= ?b)%Z] => destruct (Z.compare_spec a b)
    | H : context [(?a ?= ?b)%Z] |- _ => destruct (Z.compare_spec a b)
    | |- context [(?a ?= ?b)%positive] => destruct (Pos.compare_spec a b)
    | H : context [(?a ?= ?b)%positive] |- _ => destruct (Pos.compare_spec a b)
    end;
  subst; cbn in *; try first [discriminate | reflexivity | lia].

Lemma SFleb_trans (x y z : spec_float) :
  SFleb x y = true -> SFleb y z = true -> SFleb x z = true.
Proof. unfold SFleb, SFcompare. sf_cases; cmp_cases. Qed.

Lemma SFltb_false_leb (x y : spec_float) :
  x <> S754_nan -> y <> S754_nan -> SFltb x y = false -> SFleb y x = true.
Proof. unfold SFleb, SFltb, SFcompare. sf_cases; cmp_cases. Qed.

Lemma SFltb_leb (x y : spec_float) : SFltb x y = true -> SFleb x y = true.
Proof. unfold SFleb, SFltb. now destruct (SFcompare x y) as [[]|]. Qed.

Lemma SFleb_antisym (x y : spec_float) :
  SFleb x y = true -> SFleb y x = true -> SFeqb x y = true.
Proof. unfold SFleb, SFeqb, SFcompare. sf_cases; cmp_cases. Qed.

Lemma SFeqb_sym (x y : spec_float) : SFeqb x y = SFeqb y x.
Proof. unfold SFeqb, SFcompare. sf_cases; cmp_cases. Qed.

Lemma SFeqb_refl_iff (x : spec_float) : SFeqb x x = true <-> x <> S754_nan.
Proof.
  unfold SFeqb, SFcompare. split.
  - intros H ->. discriminate.
  - intros H. sf_cases; cmp_cases.
Qed.

Lemma SFleb_refl (x : spec_float) : x <> S754_nan -> SFleb x x = true.
Proof. intros H. unfold SFleb, SFcompare. sf_cases; cmp_cases. Qed.

Lemma is_nan_false (a : float) :
  PrimFloat.is_nan a = false <-> Prim2SF a <> S754_nan.
Proof.
  unfold PrimFloat.is_nan. rewrite FloatAxioms.eqb_spec, negb_false_iff.
  apply SFeqb_refl_iff.
Qed.

Lemma leb_trans (a b c : float) :
  (a <=? b)%float = true -> (b <=? c)%float = true -> (a <=? c)%float = true.
Proof. rewrite !FloatAxioms.leb_spec. apply SFleb_trans. Qed.

Lemma leb_refl (a : float) :
  PrimFloat.is_nan a = false -> (a <=? a)%float = true.
Proof. rewrite is_nan_false, FloatAxioms.leb_spec. apply SFleb_refl. Qed.

Lemma ltb_false_leb (a b : float) :
  PrimFloat.is_nan a = false -> PrimFloat.is_nan b = false ->
  (a <? b)%float = false -> (b <=? a)%float = true.
Proof.
  rewrite !is_nan_false, FloatAxioms.ltb_spec, FloatAxioms.leb_spec.
  apply SFltb_false_leb.
Qed.

Lemma ltb_leb (a b : float) :
  (a <? b)%float = true -> (a <=? b)%float = true.
Proof. rewrite FloatAxioms.ltb_spec, FloatAxioms.leb_spec. apply SFltb_leb. Qed.

Lemma leb_antisym (a b : float) :
  (a <=? b)%float = true -> (b <=? a)%float = true -> (a =? b)%float = true.
Proof. rewrite !FloatAxioms.leb_spec, FloatAxioms.eqb_spec. apply SFleb_antisym. Qed.

Lemma eqb_sym (a b : float) : (a =? b)%float = (b =? a)%float.
Proof. rewrite !FloatAxioms.eqb_spec. apply SFeqb_sym. Qed.
End FloatOrder.

(* ===================================================================== *)
(** ** Template matcher: [match_template] *)
(* ===================================================================== *)

Section MatchTemplate.
Context `{Cv2}.

(** Case analysis on the call the left-hand side runs next. *)
Ltac innermost m k :=
  lazymatch m with
  | ebind _ ?m' => innermost m' k
  | _ => k m
  end.
Ltac step :=
  lazymatch goal with
  | |- ?lhs = _ =>
      innermost lhs ltac:(fun m =>
        lazymatch m with
        | if ?c then _ else _ => destruct c
        | _ => destruct m as [?|?]
        end);
      repeat match goal with p : (_ * _)%type |- _ => destruct p end
  end.

(** One turn of the loop, in two halves. *)
Lemma match_template_loop_cons (scr tpl : ndarray) (best : option MatchResult)
    (s : float) (scales : list float) :
  match_template_loop scr tpl (rows scr) (cols scr) best (s :: scales) =
    ebind (fun '(max_val, max_loc) =>
      ebind (fun best' =>
               match_template_loop scr tpl (rows scr) (cols scr) best' scales)
        (if match best with
            | None => true
            | Some b => (confidence b <? max_val)%float
            end
         then ebind (fun m => Ok (Some m)) (to_frame tpl s max_val max_loc)
         else Ok best))
      (scan_scale scr tpl s).
Proof.
  unfold scan_scale, to_frame. cbn [match_template_loop].
  unfold mbind, except_bind. cbn [shape].
  do 7 (step; cbn [ebind shape]; try reflexivity).
  step; cbn [ebind shape]; [|reflexivity].
  do 8 (step; cbn [ebind]; try reflexivity).
Qed.

(** On scales that are all measured the loop is the fold of [keep_best]
    over the measurements. *)
Lemma match_template_loop_measured (scr tpl : ndarray) (scales : list float)
    (ms : list MatchResult) :
  Forall2 (measured scr tpl) scales ms ->
  forall best,
    match_template_loop scr tpl (rows scr) (cols scr) best scales
      = Ok (fold_left keep_best ms best).
Proof.
  induction 1 as [|s m scales ms (loc & Hscan & Hbox & _) _ IH]; intros best.
  - reflexivity.
  - rewrite match_template_loop_cons, Hscan. cbn [ebind fold_left].
    rewrite <- IH. unfold keep_best.
    destruct best as [b|]; [destruct (confidence b <? confidence m)%float|];
      rewrite ?Hbox; reflexivity.
Qed.

Lemma match_template_measured (scr tpl : ndarray) (thresh : float)
    (scales : list float) (ms : list MatchResult) :
  Forall2 (measured scr tpl) scales ms ->
  match_template scr tpl thresh scales =
    Ok (match fold_left keep_best ms None with
        | Some b => if (thresh <=? confidence b)%float then Some b else None
        | None => None
        end).
Proof.
  intros Hms. unfold match_template, shape, mbind, except_bind.
  rewrite (match_template_loop_measured _ _ _ _ Hms). cbn [ebind].
  destruct (fold_left keep_best ms None) as [b|]; [|reflexivity].
  now destruct (thresh <=? confidence b)%float.
Qed.

Lemma measured_number (scr tpl : ndarray) (scales : list float)
    (ms : list MatchResult) :
  Forall2 (measured scr tpl) scales ms ->
  Forall (fun m => PrimFloat.is_nan (confidence m) = false) ms.
Proof.
  induction 1 as [|s m scales ms (loc & _ & _ & Hn) _ IH]; constructor; auto.
Qed.
End MatchTemplate.

(** The fold keeps a maximum of what it has seen. *)
Lemma keep_best_max (ms : list MatchResult) (b : MatchResult) :
  PrimFloat.is_nan (confidence b) = false ->
  Forall (fun m => PrimFloat.is_nan (confidence m) = false) ms ->
  exists r,
    fold_left keep_best ms (Some b) = Some r
    /\ In r (b :: ms)
    /\ PrimFloat.is_nan (confidence r) = false
    /\ forall m, In m (b :: ms) -> (confidence m <=? confidence r)%float = true.
Proof.
  intros Hb Hms. revert b Hb.
  induction Hms as [|m ms Hm _ IH]; intros b Hb.
  - exists b. cbn. repeat split; auto.
    intros m [<-|[]]. now apply leb_refl.
  - cbn [fold_left keep_best].
    destruct (confidence b <? confidence m)%float eqn:E.
    + destruct (IH m Hm) as (r & Hr & Hin & Hn & Hmax).
      exists r. repeat split; auto.
      * destruct Hin as [<-|Hin]; [right; now left | right; now right].
      * intros m' [<-|[<-|Hin']].
        -- eapply leb_trans; [apply ltb_leb, E | apply Hmax; now left].
        -- apply Hmax; now left.
        -- apply Hmax; now right.
    + destruct (IH b Hb) as (r & Hr & Hin & Hn & Hmax).
      exists r. repeat split; auto.
      * destruct Hin as [<-|Hin]; [now left | right; now right].
      * intros m' [<-|[<-|Hin']].
        -- apply Hmax; now left.
        -- eapply leb_trans; [apply ltb_false_leb, E; assumption|].
           apply Hmax; now left.
        -- apply Hmax; now right.
Qed.

Lemma keep_best_first_max (ms : list MatchResult) :
  ms <> [] ->
  Forall (fun m => PrimFloat.is_nan (confidence m) = false) ms ->
  exists r,
    fold_left keep_best ms None = Some r
    /\ In r ms
    /\ forall m, In m ms -> (confidence m <=? confidence r)%float = true.
Proof.
  intros Hne Hms. destruct Hms as [|b ms Hb Hms]; [congruence|].
  destruct (keep_best_max ms b Hb Hms) as (r & Hr & Hin & _ & Hmax).
  exists r. auto.
Qed.

Section MatchTemplateClaims.
Context `{Cv2}.

(** C3 (as amended).  On a non-empty scale set every scale of which is
    measured (the OpenCV calls succeed, the confidence is a number, and the
    division by the scale that maps the hit back to frame coordinates is
    defined), [match_template] returns a MatchResult exactly when the best
    confidence over the scales is at least the threshold; the result it
    returns is that best measurement, and below the threshold it returns
    [None]. *)
Theorem match_template_accepts_best (scr tpl : ndarray) (thresh : float)
    (scales : list float) (ms : list MatchResult) :
  scales <> [] ->
  Forall2 (measured scr tpl) scales ms ->
  exists best,
    In best ms
    /\ (forall m, In m ms -> (confidence m <=? confidence best)%float = true)
    /\ match_template scr tpl thresh scales =
         Ok (if (thresh <=? confidence best)%float then Some best else None).
Proof.
  intros Hne Hms.
  assert (Hne' : ms <> []).
  { destruct Hms; [congruence | discriminate]. }
  destruct (keep_best_first_max ms Hne' (measured_number _ _ _ _ Hms))
    as (best & Hfold & Hin & Hmax).
  exists best. repeat split; auto.
  now rewrite (match_template_measured _ _ _ _ _ Hms), Hfold.
Qed.

(** C6.  The order of the scales does not matter when no two of them
    tie: on a scale list each scale of which has its measurement (its
    maximal confidence, a number, and the match it stands for in frame
    coordinates) and whose confidences are pairwise different, every
    permutation of the list gives the same answer, the same MatchResult or
    the same [None]. *)
Theorem match_template_permutation (scr tpl : ndarray) (thresh : float)
    (scales scales' : list float) (ms : list MatchResult) :
  Forall2 (measured scr tpl) scales ms ->
  ForallOrdPairs
    (fun a b => (confidence a =? confidence b)%float = false) ms ->
  scales ≡ₚ scales' ->
  match_template scr tpl thresh scales' = match_template scr tpl thresh scales.
Proof.
  intros Hms Hdiff Hperm.
  destruct (Permutation_Forall2 Hperm Hms) as (ms' & Hperm' & Hms').
  rewrite (match_template_measured _ _ _ _ _ Hms),
    (match_template_measured _ _ _ _ _ Hms').
  enough (fold_left keep_best ms' None = fold_left keep_best ms None)
    as -> by reflexivity.
  destruct ms as [|m0 ms0].
  { apply Permutation_nil in Hperm'. now subst. }
  assert (Hne : m0 :: ms0 <> []) by discriminate.
  assert (Hne' : ms' <> []).
  { intros ->. apply Permutation_sym, Permutation_nil in Hperm'.
    discriminate. }
  destruct (keep_best_first_max _ Hne (measured_number _ _ _ _ Hms))
    as (r & -> & Hin & Hmax).
  destruct (keep_best_first_max _ Hne' (measured_number _ _ _ _ Hms'))
    as (r' & -> & Hin' & Hmax').
  apply (Permutation_in _ (Permutation_sym Hperm')) in Hin'.
  pose proof (leb_antisym _ _ (Hmax r' Hin')
                (Hmax' r (Permutation_in _ Hperm' Hin))) as Heq.
  destruct (ForallOrdPairs_In Hdiff r r' Hin Hin') as [->|[Hd|Hd]].
  - reflexivity.
  - rewrite eqb_sym in Hd. congruence.
  - congruence.
Qed.

(** C10.  With no candidate scale there is nothing to find: the answer is
    [None] whatever the frame, the template and the threshold. *)
Theorem match_template_no_scales (scr tpl : ndarray) (thresh : float) :
  match_template scr tpl thresh [] = Ok None.
Proof. reflexivity. Qed.
End MatchTemplateClaims.

Section MatchTemplateBench.
Import Bench.

Lemma button_measured_ok :
  Forall2 (measured button_screen button_tpl) default_scales button_measured.
Proof. repeat constructor; eexists; repeat split; vm_compute; reflexivity. Qed.

Lemma match_template_accepts_best_witness :
  default_scales <> []
  /\ Forall2 (measured button_screen button_tpl) default_scales button_measured
  /\ exists best,
       In best button_measured
       /\ (forall m, In m button_measured ->
                     (confidence m <=? confidence best)%float = true)
       /\ match_template button_screen button_tpl 0.86 default_scales =
            Ok (if (0.86 <=? confidence best)%float then Some best else None).
Proof.
  assert (Hne : default_scales <> []) by discriminate.
  exact (conj Hne (conj button_measured_ok
           (match_template_accepts_best _ _ _ _ _ Hne button_measured_ok))).
Defined.

(** A zero scale is a candidate like any other for the first half of the
    turn, and divides by zero in the second: with the single-pixel
    template the scan at scale 0.0 peaks at 0.3, above the threshold, and
    the call raises instead of returning that match. *)
Lemma match_template_zero_scale_raises :
  scan_scale button_screen dot_tpl 0.0 = Ok (0.30%float, (0, 0))
  /\ (0.25 <=? 0.30)%float = true
  /\ match_template button_screen dot_tpl 0.25 [0.0%float]
       = Err ZeroDivisionError.
Proof. repeat split; vm_compute; reflexivity. Qed.

Lemma button_measured_distinct :
  ForallOrdPairs
    (fun a b => (confidence a =? confidence b)%float = false)
    button_measured.
Proof. repeat constructor. Qed.

Lemma match_template_permutation_witness :
  Forall2 (measured button_screen button_tpl) default_scales button_measured
  /\ ForallOrdPairs
       (fun a b => (confidence a =? confidence b)%float = false)
       button_measured
  /\ default_scales ≡ₚ [1.2; 0.8; 1.1; 0.9; 1.0]%float
  /\ match_template button_screen button_tpl 0.86 [1.2; 0.8; 1.1; 0.9; 1.0]%float
       = match_template button_screen button_tpl 0.86 default_scales.
Proof.
  assert (Hperm : default_scales ≡ₚ [1.2; 0.8; 1.1; 0.9; 1.0]%float).
  { change default_scales with (rev [1.2; 0.8; 1.1; 0.9; 1.0]%float).
    symmetry. apply Permutation_rev. }
  exact (conj button_measured_ok (conj button_measured_distinct (conj Hperm
           (match_template_permutation _ _ 0.86%float _ _ _
              button_measured_ok button_measured_distinct Hperm)))).
Defined.
End MatchTemplateBench.

(* ===================================================================== *)
(** ** Locator resolver and action driver: [pogo_ui] *)
(* ===================================================================== *)

(** Unfolding one [x ← m; k] of a call. *)
Ltac io_unfold :=
  unfold mbind, mret, PogoUi.io_mbind, PogoUi.io_mret, io_bind.

Section NextFrame.
Context {PS : Type} `{Cv2} `{PngSource PS} `{Timing PS}.

(** C2 (the code departs from it).  [decode_png] raises on bytes that are
    not an image and [_next_frame] has no handler around the call: the
    first frame that fails to decode ends [_next_frame] with
    [RuntimeError], whatever frames follow it in the stream. *)
Theorem next_frame_raises_on_corrupt_frame (fuel : nat) (w : World PS)
    (png : IoFast.bytes) (ps' : PS) :
  source_next_png (ps w) = (Some png, ps') ->
  imdecode png = None ->
  _next_frame (S fuel) w =
    (Raise RuntimeError,
     MkWorld ps' (shell w) (clock w + pull_time (ps w))%Q).
Proof.
  intros Hpull Hdec. cbn [_next_frame]. io_unfold.
  unfold ps_next_png. rewrite Hpull. unfold lift, decode_png.
  now rewrite Hdec.
Qed.

(** More fuel does not change a call that has ended. *)
Lemma next_frame_fuel (fuel fuel' : nat) (w w' : World PS) r :
  _next_frame fuel w = (r, w') -> r <> Running -> (fuel <= fuel')%nat ->
  _next_frame fuel' w = (r, w').
Proof.
  revert fuel' w. induction fuel as [|fuel IH]; intros fuel' w Hr Hne Hle.
  - cbn in Hr. injection Hr as <- <-. congruence.
  - destruct fuel' as [|fuel']; [lia|].
    cbn [_next_frame] in *. revert Hr. io_unfold. unfold ps_next_png.
    destruct (source_next_png (ps w)) as [[png|] p']; [auto|].
    intros Hr. apply IH; [assumption | assumption | lia].
Qed.

(** [_next_frame] writes nothing to the shell. *)
Lemma next_frame_shell (fuel : nat) (w w' : World PS) r :
  _next_frame fuel w = (r, w') -> shell w' = shell w.
Proof.
  revert w. induction fuel as [|fuel IH]; intros w.
  - cbn. now intros [= _ <-].
  - cbn [_next_frame]. io_unfold. unfold ps_next_png.
    destruct (source_next_png (ps w)) as [[png|] p'].
    + unfold lift. now intros [= _ <-].
    + intros Hr. now apply IH in Hr.
Qed.
End NextFrame.

Section NextFrameOnPipe.
Import IoFast.

Lemma next_png_loop_shrinks (fuel : nat) (buf out out' : bytes) r :
  next_png_loop fuel buf out = Some (r, out') ->
  (length out' <= length out)%nat.
Proof.
  revert buf out. induction fuel as [|fuel IH]; intros buf out; [discriminate|].
  cbn [next_png_loop]. unfold read.
  destruct (is_empty (take 4 out)).
  { intros [= _ <-]. rewrite length_drop. lia. }
  destruct (is_empty _ || is_empty _ || is_empty _).
  { intros [= _ <-]. rewrite !length_drop. lia. }
  destruct (bool_decide _).
  { intros [= _ <-]. rewrite !length_drop. lia. }
  intros Hr. apply IH in Hr. rewrite !length_drop in Hr. lia.
Qed.

(** A call of [next_png] never gives bytes back to the pipe, and a call
    that yields a frame has taken bytes off it. *)
Lemma next_png_shrinks (out out' : bytes) r :
  next_png out = (r, out') ->
  (length out' <= length out)%nat
  /\ (r <> None -> (length out' < length out)%nat).
Proof.
  unfold next_png, read.
  destruct (is_empty (take 8 out)) eqn:E.
  { intros [= <- <-]. rewrite length_drop. split; [lia | congruence]. }
  assert (length (drop 8 out) < length out)%nat as Hlt.
  { rewrite length_drop. destruct out; [discriminate E | cbn; lia]. }
  destruct (negb _).
  { intros [= <- <-]. split; [lia | congruence]. }
  destruct (next_png_loop _ _ _) as [[r0 o0]|] eqn:El.
  - intros [= <- <-]. apply next_png_loop_shrinks in El. split; lia.
  - intros [= <- <-]. split; [lia | congruence].
Qed.

Context `{Cv2} `{Timing bytes}.

(** A frame returned by [_next_frame] has been taken off the pipe. *)
Lemma next_frame_consumes (fuel : nat) (w w' : World bytes) (img : ndarray) :
  _next_frame fuel w = (Return img, w') ->
  (length (ps w') < length (ps w))%nat.
Proof.
  revert w. induction fuel as [|fuel IH]; intros w; [discriminate|].
  cbn [_next_frame]. io_unfold. unfold ps_next_png.
  destruct (source_next_png (ps w)) as [[png|] p'] eqn:E;
    apply next_png_shrinks in E; destruct E as [Hle Hlt].
  - unfold lift. intros [= _ <-]. cbn. apply Hlt. discriminate.
  - intros Hr. apply IH in Hr. cbn in Hr. lia.
Qed.
End NextFrameOnPipe.

Section NextFrameBench.
Import Bench.

Lemma next_frame_raises_on_corrupt_frame_witness :
  source_next_png (corrupt_png ++ blank_png) = (Some corrupt_png, blank_png)
  /\ imdecode corrupt_png = None
  /\ @_next_frame _ _ PngStream instant 1
       (MkWorld (corrupt_png ++ blank_png) [] 0) =
       (Raise RuntimeError, MkWorld blank_png [] (0 + 0)).
Proof.
  assert (Hpull : source_next_png (corrupt_png ++ blank_png)
                  = (Some corrupt_png, blank_png)) by (vm_compute; reflexivity).
  assert (Hdec : imdecode corrupt_png = None) by (vm_compute; reflexivity).
  exact (conj Hpull (conj Hdec
           (@next_frame_raises_on_corrupt_frame _ _ PngStream instant 0
              (MkWorld (corrupt_png ++ blank_png) [] 0) _ _ Hpull Hdec))).
Defined.

(** Had the corrupt frame been skipped, the next one was fine. *)
Example next_frame_after_corrupt_frame :
  @_next_frame _ _ PngStream instant 1 (MkWorld blank_png [] 0)
    = (Return blank_screen, MkWorld [] [] (0 + 0)).
Proof. vm_compute. reflexivity. Qed.
End NextFrameBench.

Section Actions.
Context {PS : Type} `{Cv2} `{PngSource PS} `{Timing PS}.

(** [if wait_after: time.sleep(wait_after)] with a non-negative length:
    the clock moves by [wait_after], nothing else does. *)
Lemma sleep_if_nonneg (wait_after : Q) (w : World PS) :
  (0 <= wait_after)%Q ->
  exists w',
    sleep_if wait_after w = (Return tt, w')
    /\ ps w' = ps w /\ shell w' = shell w
    /\ (clock w' == clock w + wait_after)%Q.
Proof.
  intros Hw. unfold sleep_if.
  destruct (Qeq_bool wait_after 0) eqn:E.
  - apply Qeq_bool_iff in E. exists w. repeat split. rewrite E. lra.
  - unfold time_sleep. destruct (Qlt_le_dec wait_after 0) as [Hneg|_]; [lra|].
    eexists. repeat split.
Qed.

(** C4.  [tap_locator] resolves the locator with [wait_and_find] under a
    timeout of 3 seconds.  On a hit with bounding box [(x, y, w, h)] it
    writes one line to the shell, the tap at [(x + w // 2, y + h // 2)],
    the centre of the box, lets [wait_after] seconds pass and returns
    [True]; on a miss it returns [False] and leaves the shell as
    [wait_and_find] left it. *)
Theorem tap_locator_hit_or_miss (fuel : nat) (cfg : UiPack) (loc : Locator)
    (wait_after : Q) (w : World PS) :
  (0 <= wait_after)%Q ->
  (forall x y wd ht c frame w1,
      wait_and_find fuel cfg loc 3 (12 # 100) w
        = (Return (Some (x, y, wd, ht, c), frame), w1) ->
      (2 * (x + wd `div` 2) <= 2 * x + wd <= 2 * (x + wd `div` 2) + 1
       /\ 2 * (y + ht `div` 2) <= 2 * y + ht <= 2 * (y + ht `div` 2) + 1)
      /\ exists w2,
        tap_locator fuel cfg loc wait_after w = (Return true, w2)
        /\ shell w2 = shell w1 ++
             ["input tap " +:+ pretty (x + wd `div` 2) +:+ " "
                +:+ pretty (y + ht `div` 2)]
        /\ ps w2 = ps w1
        /\ (clock w2 == clock w1 + wait_after)%Q)
  /\ (forall frame w1,
        wait_and_find fuel cfg loc 3 (12 # 100) w
          = (Return (None, frame), w1) ->
        tap_locator fuel cfg loc wait_after w = (Return false, w1)).
Proof.
  intros Hw. split.
  - intros x y wd ht c frame w1 Hfind. split.
    { pose proof (Z.div_mod wd 2 ltac:(lia)).
      pose proof (Z.mod_pos_bound wd 2 ltac:(lia)).
      pose proof (Z.div_mod ht 2 ltac:(lia)).
      pose proof (Z.mod_pos_bound ht 2 ltac:(lia)). lia. }
    unfold tap_locator. io_unfold. rewrite Hfind. cbn [center_of].
    unfold tap, send. cbn beta iota.
    destruct (sleep_if_nonneg wait_after
                (MkWorld (ps w1)
                   (shell w1 ++
                      ["input tap " +:+ pretty (x + wd `div` 2) +:+ " "
                         +:+ pretty (y + ht `div` 2)])
                   (clock w1)) Hw) as (w2 & Hs & Hps & Hsh & Hck).
    exists w2. rewrite Hs. auto.
  - intros frame w1 Hfind. unfold tap_locator. io_unfold.
    now rewrite Hfind.
Qed.

(** C7 (as amended).  Once [_next_frame] has handed over a frame, and for
    a non-negative [wait_after] and swipes whose end points convert on
    that frame: [swipe_by_name] raises exactly when the name is not among
    the configured swipes, and the error is [KeyError]; for a configured
    name it writes one line to the shell, the swipe between the end points
    computed from that frame's dimensions. *)
Theorem swipe_by_name_raises_iff_unknown (fuel : nat) (cfg : UiPack)
    (key : string) (wait_after : Q) (w w1 : World PS) (frame : ndarray) :
  _next_frame fuel w = (Return frame, w1) ->
  (0 <= wait_after)%Q ->
  (forall sw, swipes cfg !! key = Some sw ->
              exists pts, _abs_points_from_swipe frame sw = Ok pts) ->
  ((exists e, (swipe_by_name fuel cfg key wait_after w).1 = Raise e)
     <-> swipes cfg !! key = None)
  /\ (swipes cfg !! key = None ->
      swipe_by_name fuel cfg key wait_after w = (Raise KeyError, w1))
  /\ (forall sw sx sy ex ey,
        swipes cfg !! key = Some sw ->
        _abs_points_from_swipe frame sw = Ok (sx, sy, ex, ey) ->
        exists w2,
          swipe_by_name fuel cfg key wait_after w = (Return tt, w2)
          /\ shell w2 = shell w1 ++
               ["input swipe " +:+ pretty sx +:+ " " +:+ pretty sy +:+ " "
                  +:+ pretty ex +:+ " " +:+ pretty ey +:+ " "
                  +:+ pretty (duration_ms sw)]
          /\ ps w2 = ps w1
          /\ (clock w2 == clock w1 + wait_after)%Q).
Proof.
  intros Hframe Hw Hconv.
  assert (Hknown : forall sw sx sy ex ey,
    swipes cfg !! key = Some sw ->
    _abs_points_from_swipe frame sw = Ok (sx, sy, ex, ey) ->
    exists w2,
      swipe_by_name fuel cfg key wait_after w = (Return tt, w2)
      /\ shell w2 = shell w1 ++
           ["input swipe " +:+ pretty sx +:+ " " +:+ pretty sy +:+ " "
              +:+ pretty ex +:+ " " +:+ pretty ey +:+ " "
              +:+ pretty (duration_ms sw)]
      /\ ps w2 = ps w1
      /\ (clock w2 == clock w1 + wait_after)%Q).
  { intros sw sx sy ex ey Hsw Hpts. unfold swipe_by_name. io_unfold.
    rewrite Hframe, Hsw. unfold lift. rewrite Hpts. cbn [of_except].
    unfold swipe, send. cbn beta iota.
    destruct (sleep_if_nonneg wait_after
                (MkWorld (ps w1)
                   (shell w1 ++
                      ["input swipe " +:+ pretty sx +:+ " " +:+ pretty sy
                         +:+ " " +:+ pretty ex +:+ " " +:+ pretty ey +:+ " "
                         +:+ pretty (duration_ms sw)])
                   (clock w1)) Hw) as (w2 & Hs & Hps & Hsh & Hck).
    exists w2. rewrite Hs. auto. }
  assert (Hunknown : swipes cfg !! key = None ->
    swipe_by_name fuel cfg key wait_after w = (Raise KeyError, w1)).
  { intros Hsw. unfold swipe_by_name. io_unfold. now rewrite Hframe, Hsw. }
  repeat split; auto.
  - intros [e He]. destruct (swipes cfg !! key) as [sw|] eqn:Hsw; [|reflexivity].
    destruct (Hconv sw eq_refl) as ([[[sx sy] ex] ey] & Hpts).
    destruct (Hknown sw sx sy ex ey eq_refl Hpts) as (w2 & Hr & _).
    rewrite Hr in He. discriminate.
  - intros Hsw. exists KeyError. now rewrite (Hunknown Hsw).
Qed.
End Actions.

(** C8.  On a 1080x2400 frame the swipe from (0.85, 0.50) to (0.20, 0.50)
    goes from (918, 1200) to (216, 1200): the binary64 products
    [1080 * 0.85] and [1080 * 0.2] round to 918.0 and 216.0. *)
Theorem abs_points_1080x2400 (samples : list Z) (duration : Z) :
  _abs_points_from_swipe (NdArray 2400 1080 samples)
    (MkSwipe (0.85, 0.50)%float (0.20, 0.50)%float duration)
  = Ok (918, 1200, 216, 1200).
Proof. vm_compute. reflexivity. Qed.

(** That swipe is the one [default_pack] configures as ["next_pokemon"]. *)
Example default_pack_next_pokemon (dir : string) :
  swipes (default_pack dir) !! "next_pokemon"
  = Some (MkSwipe (0.85, 0.50)%float (0.20, 0.50)%float 280).
Proof. reflexivity. Qed.

Section ActionsOnPipe.
Context `{Cv2} `{Timing IoFast.bytes}.

(** C9.  [swipe_by_name] pulls its frame before it looks the name up: with
    an unknown name the call raises [KeyError] and writes nothing to the
    shell, but the frame it pulled is gone from the pipe. *)
Theorem swipe_by_name_unknown_consumes_frame (fuel : nat) (cfg : UiPack)
    (key : string) (wait_after : Q) (w w1 : World IoFast.bytes)
    (frame : ndarray) :
  swipes cfg !! key = None ->
  _next_frame fuel w = (Return frame, w1) ->
  swipe_by_name fuel cfg key wait_after w = (Raise KeyError, w1)
  /\ shell w1 = shell w
  /\ (length (ps w1) < length (ps w))%nat.
Proof.
  intros Hkey Hframe. repeat split.
  - unfold swipe_by_name. io_unfold. now rewrite Hframe, Hkey.
  - eapply next_frame_shell; eassumption.
  - eapply next_frame_consumes; eassumption.
Qed.
End ActionsOnPipe.

Section WaitAndFind.
Context {PS : Type} `{Cv2} `{PngSource PS} `{Timing PS}.
Variables (cfg : UiPack) (loc : Locator) (timeout poll : Q).
Variables (good : PS -> Prop) (busy_lo busy_hi : Q).
Hypothesis Hsource : keeps_missing cfg loc good busy_lo busy_hi.
Hypothesis Hpoll : (0 <= poll)%Q.
Hypothesis Hturn : (0 < busy_lo + poll)%Q.

Lemma turns_reach (x : Q) : exists n, (x <= turns n (busy_lo + poll))%Q.
Proof.
  assert (Hn : forall n, (turns n (busy_lo + poll)
                          == inject_Z (Z.of_nat n) * (busy_lo + poll))%Q).
  { induction n as [|n IH].
    { change (0 == 0 * (busy_lo + poll))%Q. lra. }
    cbn [turns]. rewrite IH, Nat2Z.inj_succ. unfold Z.succ.
    rewrite inject_Z_plus. change (inject_Z 1) with 1%Q. lra. }
  destruct (Qarchimedean (x / (busy_lo + poll))) as [p Hp].
  exists (Pos.to_nat p).
  rewrite Hn, positive_nat_Z.
  apply Qlt_le_weak. apply (Qmult_lt_r _ _ (busy_lo + poll)) in Hp; [|assumption].
  unfold Qdiv in Hp. rewrite <- Qmult_assoc in Hp.
  rewrite (Qmult_comm (/ _)), Qmult_inv_r, Qmult_1_r in Hp.
  - exact Hp.
  - intros Hz. rewrite Hz in Hturn. apply (Qlt_irrefl 0), Hturn.
Qed.

(** The loop, started in a good state with at most [n] turns to go. *)
Lemma wait_and_find_loop_times_out (t0 : Q) (n : nat) :
  forall w : World PS,
    good (ps w) ->
    (timeout - (clock w - t0) <= turns n (busy_lo + poll))%Q ->
    exists fuel0 w',
      (forall fuel, (fuel0 <= fuel)%nat ->
         wait_and_find_loop fuel cfg loc t0 timeout poll w
           = (Return (None, None), w'))
      /\ shell w' = shell w
      /\ (w' = w \/ (clock w' - t0 < timeout + busy_hi + poll)%Q).
Proof.
  induction n as [|n IH]; intros w Hgood Hleft;
    destruct (Qlt_le_dec (clock w - t0) timeout) as [Hin|Hout].
  - cbn [turns] in Hleft. lra.
  - exists 1%nat, w. repeat split; auto.
    intros [|fuel] Hfuel; [lia|]. cbn [wait_and_find_loop]. io_unfold.
    unfold time_time. destruct (Qlt_le_dec _ _); [lra | reflexivity].
  - destruct (Hsource w Hgood) as (fuel1 & frame & w1 & Hpull & Hgood1 & Hmiss & Hbusy).
    set (w3 := elapse poll (elapse (match_time frame) w1)).
    destruct (IH w3) as (fuel2 & w' & Hrun & Hshell & Hclock).
    { exact Hgood1. }
    { cbn [turns] in Hleft. subst w3. cbn. lra. }
    exists (S (Nat.max fuel1 fuel2)), w'. repeat split.
    + intros [|fuel] Hfuel; [lia|]. cbn [wait_and_find_loop]. io_unfold.
      unfold time_time. destruct (Qlt_le_dec _ _); [|lra].
      rewrite (next_frame_fuel fuel1 (S fuel) w w1 _ Hpull)
        by (discriminate || lia).
      unfold compute. rewrite Hmiss. cbn [of_except].
      unfold time_sleep. cbn beta iota.
      destruct (Qlt_le_dec poll 0); [lra|].
      apply Hrun. lia.
    + rewrite Hshell. subst w3. cbn.
      eapply next_frame_shell; eassumption.
    + right. destruct Hclock as [->|Hclock]; [|assumption].
      subst w3. cbn. lra.
  - exists 1%nat, w. repeat split; auto.
    intros [|fuel] Hfuel; [lia|]. cbn [wait_and_find_loop]. io_unfold.
    unfold time_time. destruct (Qlt_le_dec _ _); [lra | reflexivity].
Qed.

(** C5 (as amended).  For a non-negative poll interval, on a source that
    keeps producing decodable frames in none of which the locator is
    found, and with turns of the loop that take time, [wait_and_find]
    ends and returns [(None, None)], having written nothing to the shell.
    The timeout is tested at the top of each turn only, so the call ends
    either at once or less than [timeout] plus one turn after it started:
    one [poll] and the time one frame pull and one match take.  The bound
    [timeout + poll] is the case where a pull and a match take no time. *)
Theorem wait_and_find_times_out (w : World PS) :
  good (ps w) ->
  exists fuel0 w',
    (forall fuel, (fuel0 <= fuel)%nat ->
       wait_and_find fuel cfg loc timeout poll w = (Return (None, None), w'))
    /\ shell w' = shell w
    /\ ((clock w' == clock w)%Q
        \/ (clock w' - clock w < timeout + busy_hi + poll)%Q).
Proof.
  intros Hgood.
  destruct (turns_reach (timeout - (clock w - clock w))) as [n Hn].
  destruct (wait_and_find_loop_times_out (clock w) n w Hgood Hn)
    as (fuel0 & w' & Hrun & Hshell & Hclock).
  exists fuel0, w'. repeat split; auto.
  destruct Hclock as [->|Hclock]; [left; reflexivity | right; assumption].
Qed.
End WaitAndFind.

Section EngineBench.
Import Bench.

Lemma tap_locator_hit_or_miss_witness :
  (0 <= 1 # 2)%Q
  /\ @wait_and_find _ _ PngStream instant 5 cfg hamburger 3 (12 # 100)
       two_frames
     = (Return (Some (500, 1200, 60, 40, 0.95%float), Some button_screen),
        (@wait_and_find _ _ PngStream instant 5 cfg hamburger 3 (12 # 100)
           two_frames).2)
  /\ exists w2,
       @tap_locator _ _ PngStream instant 5 cfg hamburger (1 # 2) two_frames
         = (Return true, w2)
       /\ shell w2 =
            shell (@wait_and_find _ _ PngStream instant 5 cfg hamburger 3
                     (12 # 100) two_frames).2
              ++ ["input tap " +:+ pretty (500 + 60 `div` 2) +:+ " "
                    +:+ pretty (1200 + 40 `div` 2)]
       /\ ps w2 =
            ps (@wait_and_find _ _ PngStream instant 5 cfg hamburger 3
                  (12 # 100) two_frames).2
       /\ (clock w2 ==
             clock (@wait_and_find _ _ PngStream instant 5 cfg hamburger 3
                      (12 # 100) two_frames).2 + (1 # 2))%Q.
Proof.
  assert (Hw : (0 <= 1 # 2)%Q) by (vm_compute; discriminate).
  assert (Hfind :
    @wait_and_find _ _ PngStream instant 5 cfg hamburger 3 (12 # 100)
      two_frames
    = (Return (Some (500, 1200, 60, 40, 0.95%float), Some button_screen),
       (@wait_and_find _ _ PngStream instant 5 cfg hamburger 3 (12 # 100)
          two_frames).2)) by (vm_compute; reflexivity).
  exact (conj Hw (conj Hfind
    (proj2 (proj1 (@tap_locator_hit_or_miss _ _ PngStream instant 5 cfg
                     hamburger (1 # 2) two_frames Hw)
              _ _ _ _ _ _ _ Hfind)))).
Defined.

(** The same run, end to end: one tap, at the centre of the
    60x40 box found at (500, 1200). *)
Example tap_locator_two_frames :
  (@tap_locator _ _ PngStream instant 5 cfg hamburger (1 # 2) two_frames).1
    = Return true
  /\ shell (@tap_locator _ _ PngStream instant 5 cfg hamburger (1 # 2)
              two_frames).2
     = ["input tap 530 1220"].
Proof. split; vm_compute; reflexivity. Qed.

(** On a miss nothing is sent. *)
Example tap_locator_blank_forever :
  (@tap_locator _ _ (endless blank_png) instant 30 cfg hamburger (1 # 2)
     blank_forever).1 = Return false
  /\ shell (@tap_locator _ _ (endless blank_png) instant 30 cfg hamburger
              (1 # 2) blank_forever).2 = [].
Proof. split; vm_compute; reflexivity. Qed.

Lemma swipe_by_name_raises_iff_unknown_witness :
  @_next_frame _ _ PngStream instant 1 two_frames
    = (Return blank_screen, MkWorld button_png [] (0 + 0))
  /\ (0 <= 1 # 2)%Q
  /\ ((exists e,
         (@swipe_by_name _ _ PngStream instant 1 cfg "next_pokemon" (1 # 2)
            two_frames).1 = Raise e)
      <-> swipes cfg !! "next_pokemon" = None)
  /\ exists w2,
       @swipe_by_name _ _ PngStream instant 1 cfg "next_pokemon" (1 # 2)
         two_frames = (Return tt, w2)
       /\ shell w2 = [] ++
            ["input swipe " +:+ pretty 918 +:+ " " +:+ pretty 1200 +:+ " "
               +:+ pretty 216 +:+ " " +:+ pretty 1200 +:+ " " +:+ pretty 280]
       /\ ps w2 = button_png
       /\ (clock w2 == 0 + 0 + (1 # 2))%Q.
Proof.
  assert (Hframe : @_next_frame _ _ PngStream instant 1 two_frames
            = (Return blank_screen, MkWorld button_png [] (0 + 0)))
    by (vm_compute; reflexivity).
  assert (Hw : (0 <= 1 # 2)%Q) by (vm_compute; discriminate).
  assert (Hconv : forall sw, swipes cfg !! "next_pokemon" = Some sw ->
            exists pts, _abs_points_from_swipe blank_screen sw = Ok pts).
  { intros sw Hsw. vm_compute in Hsw. injection Hsw as <-.
    eexists. vm_compute. reflexivity. }
  pose proof (@swipe_by_name_raises_iff_unknown _ _ PngStream instant 1 cfg
                "next_pokemon" (1 # 2) two_frames _ _ Hframe Hw Hconv)
    as (Hiff & _ & Hknown).
  exact (conj Hframe (conj Hw (conj Hiff
           (Hknown (MkSwipe (0.85, 0.50)%float (0.20, 0.50)%float 280)
              918 1200 216 1200 eq_refl eq_refl)))).
Defined.

(** A configured name and an error all the same: the frame pulled first
    does not decode, or the wait after the swipe is negative (the swipe
    has been sent by then). *)
Lemma swipe_by_name_configured_raises :
  swipes cfg !! "next_pokemon"
    = Some (MkSwipe (0.85, 0.50)%float (0.20, 0.50)%float 280)
  /\ (@swipe_by_name _ _ PngStream instant 1 cfg "next_pokemon" 0
        corrupt_first).1 = Raise RuntimeError
  /\ (@swipe_by_name _ _ PngStream instant 1 cfg "next_pokemon" (- (1))
        two_frames).1 = Raise ValueError
  /\ shell (@swipe_by_name _ _ PngStream instant 1 cfg "next_pokemon" (- (1))
              two_frames).2 = ["input swipe 918 1200 216 1200 280"].
Proof. repeat split; vm_compute; reflexivity. Qed.

(** An unknown name and no error: on a pipe that has run dry the call
    never gets as far as the lookup. *)
Example swipe_by_name_unknown_waits (fuel : nat) :
  (@swipe_by_name _ _ PngStream instant fuel cfg "no_such_swipe" 0
     (MkWorld [] [] 0)).1 = Running.
Proof.
  unfold swipe_by_name. io_unfold.
  enough (forall c, (@_next_frame _ _ PngStream instant fuel
                       (MkWorld [] [] c)).1 = Running) as Hrun.
  { specialize (Hrun 0%Q). destruct (_next_frame _ _) as [[] ?];
      cbn in *; congruence. }
  induction fuel as [|fuel IH]; intros c; [reflexivity|].
  cbn [_next_frame]. io_unfold. cbn. apply IH.
Qed.

Lemma swipe_by_name_unknown_consumes_frame_witness :
  swipes cfg !! "no_such_swipe" = None
  /\ @_next_frame _ _ PngStream instant 1 two_frames
       = (Return blank_screen, MkWorld button_png [] (0 + 0))
  /\ @swipe_by_name _ _ PngStream instant 1 cfg "no_such_swipe" (1 # 2)
       two_frames = (Raise KeyError, MkWorld button_png [] (0 + 0))
  /\ shell (MkWorld button_png [] (0 + 0)) = shell two_frames
  /\ (length (ps (MkWorld button_png [] (0 + 0))) < length (ps two_frames))%nat.
Proof.
  assert (Hkey : swipes cfg !! "no_such_swipe" = None)
    by (vm_compute; reflexivity).
  assert (Hframe : @_next_frame _ _ PngStream instant 1 two_frames
            = (Return blank_screen, MkWorld button_png [] (0 + 0)))
    by (vm_compute; reflexivity).
  exact (conj Hkey (conj Hframe
           (@swipe_by_name_unknown_consumes_frame _ instant 1 cfg
              "no_such_swipe" (1 # 2) two_frames _ _ Hkey Hframe))).
Defined.
End EngineBench.

Section WaitAndFindBench.
Import Bench.

Lemma blank_forever_keeps_missing :
  @keeps_missing _ _ (endless blank_png) brisk cfg hamburger
    (fun _ => True) (3 # 4) (3 # 4).
Proof.
  intros w _.
  exists 1%nat, blank_screen,
    (MkWorld (S (ps w)) (shell w) (clock w + (1 # 2))%Q).
  repeat split; try reflexivity; cbn; lra.
Qed.

Lemma wait_and_find_times_out_witness :
  @keeps_missing _ _ (endless blank_png) brisk cfg hamburger
    (fun _ => True) (3 # 4) (3 # 4)
  /\ (0 <= 12 # 100)%Q
  /\ (0 < (3 # 4) + (12 # 100))%Q
  /\ exists fuel0 w',
       (forall fuel, (fuel0 <= fuel)%nat ->
          @wait_and_find _ _ (endless blank_png) brisk fuel cfg hamburger 3
            (12 # 100) blank_forever = (Return (None, None), w'))
       /\ shell w' = shell blank_forever
       /\ ((clock w' == clock blank_forever)%Q
           \/ (clock w' - clock blank_forever
               < 3 + (3 # 4) + (12 # 100))%Q).
Proof.
  assert (Hpoll : (0 <= 12 # 100)%Q) by (vm_compute; discriminate).
  assert (Hturn : (0 < (3 # 4) + (12 # 100))%Q) by (vm_compute; reflexivity).
  exact (conj blank_forever_keeps_missing (conj Hpoll (conj Hturn
           (@wait_and_find_times_out _ _ (endless blank_png) brisk cfg
              hamburger 3 (12 # 100) (fun _ => True) (3 # 4) (3 # 4)
              blank_forever_keeps_missing Hpoll Hturn blank_forever I)))).
Defined.

(** The same call, run: four turns of 0.87 s, and the timeout noticed at
    3.48 s, past [timeout + poll] = 3.12 s.  With pulls that block for ten
    seconds the call returns after 10.12 s.  And a negative poll interval
    makes the first [time.sleep] raise. *)
Lemma wait_and_find_overruns :
  (@wait_and_find _ _ (endless blank_png) brisk 10 cfg hamburger 3
     (12 # 100) blank_forever).1 = Return (None, None)
  /\ (clock (@wait_and_find _ _ (endless blank_png) brisk 10 cfg hamburger 3
               (12 # 100) blank_forever).2 == 348 # 100)%Q
  /\ (3 + (12 # 100) < 348 # 100)%Q
  /\ (@wait_and_find _ _ (endless blank_png) sluggish 10 cfg hamburger 3
        (12 # 100) blank_forever).1 = Return (None, None)
  /\ (clock (@wait_and_find _ _ (endless blank_png) sluggish 10 cfg hamburger
               3 (12 # 100) blank_forever).2 == 1012 # 100)%Q
  /\ (@wait_and_find _ _ (endless blank_png) instant 10 cfg hamburger 3
        (- (1)) blank_forever).1 = Raise ValueError.
Proof. repeat split; vm_compute; reflexivity. Qed.
End WaitAndFindBench.

(* ===================================================================== *)
(** ** More on the frame transport *)
(* ===================================================================== *)

Section NextPngShape.
Import IoFast.

Lemma take_nonempty_full {A} (n : nat) (l : list A) :
  drop n l <> [] -> length (take n l) = n.
Proof.
  intros Hd. rewrite length_take. destruct (Nat.le_gt_cases n (length l)); [lia|].
  rewrite drop_ge in Hd by lia. congruence.
Qed.

Lemma is_empty_false (b : bytes) : is_empty b = false <-> b <> [].
Proof. destruct b; cbn; split; congruence. Qed.

Lemma take_is_empty_false {A} (n : nat) (l : list A) :
  take n l <> [] -> l <> [].
Proof. destruct l; [now rewrite take_nil | congruence]. Qed.

(** [int.from_bytes] undoes the length field, and the other way round. *)
Lemma be32_int_from_bytes (b : bytes) :
  length b = 4%nat ->
  (int_from_bytes_big b < 4294967296)%N /\ be32 (int_from_bytes_big b) = b.
Proof.
  destruct b as [|a [|b [|c [|d [|? ?] ] ] ] ]; try discriminate. intros _.
  unfold int_from_bytes_big. cbn [fold_left].
  pose proof (Byte.to_N_bounded a). pose proof (Byte.to_N_bounded b).
  pose proof (Byte.to_N_bounded c). pose proof (Byte.to_N_bounded d).
  split; [lia|]. unfold be32.
  set (n := ((((0 * 256 + Byte.to_N a) * 256 + Byte.to_N b) * 256
              + Byte.to_N c) * 256 + Byte.to_N d)%N).
  assert (n mod 256 = Byte.to_N d)%N as ->.
  { subst n. rewrite N.add_comm, N.Div0.mod_add. apply N.mod_small. lia. }
  assert (n / 256 = ((0 * 256 + Byte.to_N a) * 256 + Byte.to_N b) * 256
                    + Byte.to_N c)%N as Hq1.
  { subst n. rewrite N.add_comm, N.div_add by lia.
    rewrite N.div_small by lia. lia. }
  assert (n / 65536 = (0 * 256 + Byte.to_N a) * 256 + Byte.to_N b)%N as Hq2.
  { change 65536%N with (256 * 256)%N. rewrite <- N.Div0.div_div, Hq1.
    rewrite N.add_comm, N.div_add by lia. rewrite N.div_small by lia. lia. }
  assert (n / 16777216 = Byte.to_N a)%N as Hq3.
  { change 16777216%N with (256 * 256 * 256)%N.
    rewrite <- !N.Div0.div_div, Hq1.
    rewrite (N.add_comm _ (Byte.to_N c)), N.div_add by lia.
    rewrite (N.div_small (Byte.to_N c)) by lia. rewrite N.add_0_l.
    rewrite N.add_comm, N.div_add by lia. rewrite N.div_small by lia. lia. }
  rewrite Hq1, Hq2, Hq3.
  rewrite (N.mod_small (Byte.to_N a)) by lia.
  assert ((((0 * 256 + Byte.to_N a) * 256 + Byte.to_N b) * 256
           + Byte.to_N c) mod 256 = Byte.to_N c)%N as ->.
  { rewrite N.add_comm, N.Div0.mod_add. apply N.mod_small. lia. }
  assert (((0 * 256 + Byte.to_N a) * 256 + Byte.to_N b) mod 256
          = Byte.to_N b)%N as ->.
  { rewrite N.add_comm, N.Div0.mod_add. apply N.mod_small. lia. }
  now rewrite !Byte.of_to_N.
Qed.

Lemma final_chunk_nonempty (c : chunk) (rest : bytes) :
  final_chunk c -> encode_chunk c ++ rest <> [].
Proof.
  intros (Ht & _). unfold encode_chunk. rewrite Ht.
  destruct (be32 _); discriminate.
Qed.

(** What the loop has read when it hands over a frame. *)
Lemma next_png_loop_shape (fuel : nat) :
  forall (buf out png out' : bytes),
    next_png_loop fuel buf out = Some (Some png, out') ->
    exists cs c,
      Forall payload_chunk cs /\ final_chunk c
      /\ png = buf ++ concat (map encode_chunk cs) ++ encode_chunk c
      /\ out = concat (map encode_chunk cs) ++ encode_chunk c ++ out'
      /\ ((length (chunk_crc c) < 4)%nat -> out' = []).
Proof.
  induction fuel as [|fuel IH]; intros buf out png out'; [discriminate|].
  cbn [next_png_loop]. unfold read.
  set (raw_len := take 4 out). set (o1 := drop 4 out).
  set (ctype := take 4 o1). set (o2 := drop 4 o1).
  set (n := N.to_nat (int_from_bytes_big raw_len)).
  set (data := take n o2). set (o3 := drop n o2).
  set (crc := take 4 o3). set (o4 := drop 4 o3).
  destruct (is_empty raw_len) eqn:E0; [discriminate|].
  destruct (is_empty ctype) eqn:E1; [discriminate|].
  destruct (is_empty data) eqn:E2; [discriminate|].
  destruct (is_empty crc) eqn:E3; [discriminate|]. cbn [orb].
  apply is_empty_false in E0, E1, E2, E3.
  assert (Hlen : length raw_len = 4%nat).
  { apply take_nonempty_full. eapply take_is_empty_false, E1. }
  assert (Hty : length ctype = 4%nat).
  { apply take_nonempty_full. eapply take_is_empty_false, E2. }
  assert (Hdata : length data = n).
  { apply take_nonempty_full. eapply take_is_empty_false, E3. }
  destruct (be32_int_from_bytes raw_len Hlen) as [Hbound Hbe].
  assert (Hn : N.of_nat (length data) = int_from_bytes_big raw_len).
  { rewrite Hdata. apply N2Nat.id. }
  assert (Hout : out = raw_len ++ ctype ++ data ++ crc ++ o4).
  { subst raw_len ctype data crc o4 o3 o2 o1. now rewrite !take_drop. }
  assert (Henc : encode_chunk (Chunk ctype data crc)
                 = raw_len ++ ctype ++ data ++ crc).
  { unfold encode_chunk. cbn. now rewrite Hn, Hbe. }
  assert (Hcrc : (1 <= length crc <= 4)%nat).
  { split; [destruct crc; [congruence | cbn; lia]|].
    subst crc. rewrite length_take. lia. }
  case_bool_decide as Ei.
  - intros Heq.
    assert (Hpng : png = buf ++ raw_len ++ ctype ++ data ++ crc) by congruence.
    assert (Ho4 : out' = o4) by congruence.
    exists [], (Chunk ctype data crc). cbn [map concat app].
    split; [constructor|]. split.
    { repeat split; cbn; try assumption; [now rewrite Hn | lia | lia]. }
    split; [now rewrite Henc|].
    split; [now rewrite Henc, Hout, Ho4, <- !app_assoc|].
    cbn. intros Hshort. rewrite Ho4. subst o4 crc.
    rewrite length_take in Hshort. apply drop_ge. lia.
  - intros Hrec.
    apply IH in Hrec as (cs & c & Hcs & Hc & Hpng & Ho4 & Hshort).
    assert (Hfull : length crc = 4%nat).
    { apply take_nonempty_full. fold o4. rewrite Ho4.
      destruct cs as [|c0 cs0]; cbn [map concat app].
      - now apply final_chunk_nonempty.
      - apply Forall_cons in Hcs as [[[(Ht0 & _) _] _] _].
        intros Habs. apply (f_equal length) in Habs.
        unfold encode_chunk in Habs. rewrite !length_app, Ht0 in Habs.
        cbn in Habs. lia. }
    exists (Chunk ctype data crc :: cs), c. cbn [map concat].
    split.
    { constructor; [|assumption]. repeat split; cbn; auto. now rewrite Hn. }
    split; [assumption|].
    split; [rewrite Hpng, Henc; now rewrite <- !app_assoc|].
    split; [rewrite Henc, Hout, Ho4; now rewrite <- !app_assoc | assumption].
Qed.
End NextPngShape.

Section NextPngFrames.
Import IoFast.

Lemma read_short (a : bytes) (n : nat) :
  (length a <= n)%nat -> read n a = (a, []).
Proof.
  intros Hle. unfold read. now rewrite take_ge, drop_ge by lia.
Qed.

(** One turn of the loop on a terminal chunk with a payload. *)
Lemma next_png_loop_final (fuel : nat) (buf rest : bytes) (c : chunk) :
  final_chunk c ->
  length (chunk_crc c) = 4%nat \/ rest = [] ->
  next_png_loop (S fuel) buf (encode_chunk c ++ rest)
    = Some (Some (buf ++ encode_chunk c), rest).
Proof.
  intros (Ht & Hd & Hn & Hc) Hrest.
  destruct (be32_spec _ Hn) as [Hl Hv].
  assert (Hty : length (chunk_type c) = 4%nat) by now rewrite Ht.
  unfold encode_chunk. cbn [next_png_loop]. rewrite <- !app_assoc.
  rewrite (read_app _ _ 4) by now rewrite Hl.
  rewrite (is_empty_length _ 3 Hl).
  rewrite (read_app _ _ 4) by now rewrite Hty.
  rewrite Hv, Nat2N.id, (read_app (chunk_data c)) by reflexivity.
  assert (Hread : read 4 (chunk_crc c ++ rest) = (chunk_crc c, rest)).
  { destruct Hrest as [Hfull| ->].
    - now apply read_app.
    - rewrite app_nil_r. apply read_short. lia. }
  rewrite Hread.
  rewrite (is_empty_length _ 3 Hty).
  assert (is_empty (chunk_data c) = false) as -> by now apply is_empty_false.
  assert (is_empty (chunk_crc c) = false) as ->.
  { apply is_empty_false. intros E. rewrite E in Hc. cbn in Hc. lia. }
  cbn [orb]. now rewrite bool_decide_eq_true_2 by assumption.
Qed.

Lemma next_png_loop_framed (cs : list chunk) (c : chunk) (rest : bytes) :
  Forall payload_chunk cs -> final_chunk c ->
  length (chunk_crc c) = 4%nat \/ rest = [] ->
  forall fuel buf,
    (length cs < fuel)%nat ->
    next_png_loop fuel buf
      (concat (map encode_chunk cs) ++ encode_chunk c ++ rest)
      = Some (Some (buf ++ concat (map encode_chunk cs) ++ encode_chunk c), rest).
Proof.
  intros Hcs Hc Hrest.
  induction Hcs as [|c0 cs [[Hwf Hty] Hd] _ IH]; intros fuel buf Hfuel;
    (destruct fuel as [|fuel]; [cbn in Hfuel; lia|]).
  - cbn [map concat app]. now apply next_png_loop_final.
  - cbn [map concat]. rewrite <- app_assoc, next_png_loop_chunk by assumption.
    assert (is_empty (chunk_data c0) = false) as -> by now apply is_empty_false.
    rewrite bool_decide_eq_false_2 by assumption.
    rewrite IH by (cbn in Hfuel; lia). now rewrite <- !app_assoc.
Qed.

Lemma next_png_loop_settled (fuel : nat) (buf out : bytes) r :
  next_png_loop fuel buf out = Some r ->
  next_png_loop (S (length out)) buf out = Some r.
Proof.
  intros Hsmall.
  destruct (next_png_loop_total (S (length out)) buf out ltac:(lia))
    as [r' Hbig]. rewrite Hbig.
  destruct (Nat.le_ge_cases fuel (S (length out))) as [Hle|Hle].
  - rewrite (next_png_loop_fuel _ _ _ _ _ Hsmall Hle) in Hbig. now symmetry.
  - rewrite (next_png_loop_fuel _ _ _ _ _ Hbig Hle) in Hsmall. exact Hsmall.
Qed.

Lemma next_png_framed (cs : list chunk) (c : chunk) (rest : bytes) :
  Forall payload_chunk cs -> final_chunk c ->
  length (chunk_crc c) = 4%nat \/ rest = [] ->
  next_png (framed cs c ++ rest) = (Some (framed cs c), rest).
Proof.
  intros Hcs Hc Hrest. unfold next_png, framed. rewrite <- !app_assoc.
  rewrite (read_app PNG_SIG _ 8) by reflexivity.
  cbn [is_empty PNG_SIG]. rewrite bool_decide_eq_true_2 by reflexivity.
  cbn [negb].
  now rewrite (next_png_loop_settled (S (length cs)) _ _ _
                 (next_png_loop_framed cs c rest Hcs Hc Hrest
                    (S (length cs)) PNG_SIG ltac:(lia))).
Qed.

(** X1.  Exactly which pipes make [next_png] hand over a frame, and what it
    hands over: the pipe starts with the signature, then chunks that each
    carry a payload, then an [IEND] chunk that carries a payload too; the
    frame is those bytes, all of them and nothing else, and the pipe is left
    right behind them.  Only the last checksum may be short, and only when
    the pipe ends with it. *)
Theorem next_png_frame_iff (out png out' : bytes) :
  next_png out = (Some png, out') <->
  exists cs c,
    Forall payload_chunk cs /\ final_chunk c
    /\ png = framed cs c
    /\ out = png ++ out'
    /\ (length (chunk_crc c) = 4%nat \/ out' = []).
Proof.
  split.
  - unfold next_png, read.
    destruct (is_empty (take 8 out)) eqn:E; [discriminate|].
    case_bool_decide as Hsig; cbn [negb]; [|discriminate].
    destruct (next_png_loop _ _ _) as [[r o]|] eqn:El; [|discriminate].
    intros [= -> ->].
    apply next_png_loop_shape in El as (cs & c & Hcs & Hc & Hpng & Hout & Hshort).
    exists cs, c. rewrite Hsig in Hpng.
    split; [assumption|]. split; [assumption|]. split; [assumption|]. split.
    + transitivity (take 8 out ++ drop 8 out); [symmetry; apply take_drop|].
      rewrite Hsig, Hout, Hpng. now rewrite <- !app_assoc.
    + destruct Hc as (_ & _ & _ & Hlen).
      destruct (decide (length (chunk_crc c) = 4%nat)); [now left|].
      right. apply Hshort. lia.
  - intros (cs & c & Hcs & Hc & -> & -> & Hrest).
    now apply next_png_framed.
Qed.

(** X2.  A record cut short inside its last checksum is handed over as if
    it were whole: when the pipe ends one to three bytes into the checksum
    of the [IEND] chunk, [next_png] returns the truncated record. *)
Theorem next_png_accepts_short_checksum (cs : list chunk) (c : chunk) :
  Forall payload_chunk cs -> final_chunk c ->
  (length (chunk_crc c) < 4)%nat ->
  next_png (framed cs c) = (Some (framed cs c), []).
Proof.
  intros Hcs Hc Hshort.
  rewrite <- (app_nil_r (framed cs c)) at 1.
  apply next_png_framed; auto.
Qed.

(** X3.  Desynchronisation is skipped eight bytes at a time: when the next
    eight bytes (or what is left of the pipe) are not the signature, the
    call yields no frame and takes exactly those bytes off the pipe. *)
Theorem next_png_bad_signature (out : bytes) :
  take 8 out <> PNG_SIG -> next_png out = (None, drop 8 out).
Proof.
  intros Hsig. unfold next_png, read.
  destruct (is_empty (take 8 out)); [reflexivity|].
  now rewrite bool_decide_eq_false_2 by assumption.
Qed.

(** X4.  A call never stalls on a pipe that still has bytes: it takes at
    least one byte off it, frame or no frame. *)
Theorem next_png_progress (out : bytes) :
  out <> [] -> (length (next_png out).2 < length out)%nat.
Proof.
  intros Hne. unfold next_png, read.
  assert (Hlt : (length (drop 8 out) < length out)%nat).
  { rewrite length_drop. destruct out; [congruence | cbn; lia]. }
  destruct (is_empty (take 8 out)); [exact Hlt|].
  destruct (negb _); [exact Hlt|].
  destruct (next_png_loop _ _ _) as [[r o]|] eqn:El; [|exact Hlt].
  apply next_png_loop_shrinks in El. cbn. lia.
Qed.
End NextPngFrames.

Section NextFrameOnFiles.
Import IoFast.
Context `{Cv2} `{Timing bytes}.

(** A PNG file on the pipe is read to its end and dropped. *)
Lemma next_png_png_file (f : list chunk * bytes) (rest : bytes) :
  png_file f -> next_png (png_record f.1 f.2 ++ rest) = (None, rest).
Proof.
  destruct f as [cs crc]. intros [Hcs Hcrc]. cbn [fst snd] in *.
  unfold next_png, png_record. rewrite <- !app_assoc.
  rewrite (read_app PNG_SIG _ 8) by reflexivity.
  cbn [is_empty PNG_SIG]. rewrite bool_decide_eq_true_2 by reflexivity.
  cbn [negb].
  enough (forall buf, next_png_loop (S (length cs)) buf
            (concat (map encode_chunk cs) ++ encode_chunk (iend_chunk crc) ++ rest)
            = Some (None, rest)) as Hloop.
  { now rewrite (next_png_loop_settled _ _ _ _ (Hloop PNG_SIG)). }
  induction Hcs as [|c cs [[Hwf Hty] Hd] _ IH]; intros buf.
  - cbn [map concat app length]. rewrite next_png_loop_chunk; [reflexivity|].
    repeat split; cbn; first [assumption | reflexivity | lia].
  - cbn [map concat length]. rewrite <- app_assoc, next_png_loop_chunk by assumption.
    assert (is_empty (chunk_data c) = false) as -> by now apply is_empty_false.
    rewrite bool_decide_eq_false_2 by assumption. apply IH.
Qed.

(** X5.  On a pipe that carries PNG files and nothing else, [_next_frame]
    never returns: every file is read and dropped, and once the pipe has run
    dry the loop goes round on [None] for good. *)
Theorem next_frame_spins_on_png_files (files : list (list chunk * bytes))
    (fuel : nat) (sh : list string) (c : Q) :
  Forall png_file files ->
  (_next_frame fuel
     (MkWorld (concat (map (fun f => png_record f.1 f.2) files)) sh c)).1
  = Running.
Proof.
  intros Hfiles. revert files Hfiles c.
  induction fuel as [|fuel IH]; intros files Hfiles c; [reflexivity|].
  cbn [_next_frame]. io_unfold. unfold ps_next_png, source_next_png, PngStream.
  cbn [ps shell clock].
  destruct Hfiles as [|f files Hf Hfiles].
  - cbn [map concat]. change (next_png []) with (@None bytes, @nil byte).
    apply (IH []). constructor.
  - cbn [map concat]. rewrite (next_png_png_file f _ Hf). now apply IH.
Qed.
End NextFrameOnFiles.

(* ===================================================================== *)
(** ** More on the template matcher *)
(* ===================================================================== *)

Section FloatOrderMore.
Import SpecFloat.

Ltac sf_cases :=
  repeat match goal with
    | x : spec_float |- _ => destruct x as [[]|[]| |[] ? ?]
    end;
  cbn; try first [discriminate | reflexivity | congruence].

Ltac cmp_cases :=
  change (PosDef.Pos.compare_cont Eq) with Pos.compare in *;
  repeat match goal with
    | |- context [(?a ?= ?b)%Z] => destruct (Z.compare_spec a b)
    | H : context [(?a ?= ?b)%Z] |- _ => destruct (Z.compare_spec a b)
    | |- context [(?a ?= ?b)%positive] => destruct (Pos.compare_spec a b)
    | H : context [(?a ?= ?b)%positive] |- _ => destruct (Pos.compare_spec a b)
    end;
  subst; cbn in *; try first [discriminate | reflexivity | lia].

Lemma SFltb_trans (x y z : spec_float) :
  SFltb x y = true -> SFltb y z = true -> SFltb x z = true.
Proof. unfold SFltb, SFcompare. sf_cases; cmp_cases. Qed.

Lemma SFleb_ltb_trans (x y z : spec_float) :
  SFleb x y = true -> SFltb y z = true -> SFltb x z = true.
Proof. unfold SFleb, SFltb, SFcompare. sf_cases; cmp_cases. Qed.

Lemma SFleb_number (x y : spec_float) :
  SFleb x y = true -> x <> S754_nan /\ y <> S754_nan.
Proof. unfold SFleb, SFcompare. sf_cases; split; discriminate. Qed.

Lemma ltb_trans (a b c : float) :
  (a <? b)%float = true -> (b <? c)%float = true -> (a <? c)%float = true.
Proof. rewrite !FloatAxioms.ltb_spec. apply SFltb_trans. Qed.

Lemma leb_ltb_trans (a b c : float) :
  (a <=? b)%float = true -> (b <? c)%float = true -> (a <? c)%float = true.
Proof.
  rewrite FloatAxioms.leb_spec, !FloatAxioms.ltb_spec. apply SFleb_ltb_trans.
Qed.

Lemma leb_number (a b : float) :
  (a <=? b)%float = true ->
  PrimFloat.is_nan a = false /\ PrimFloat.is_nan b = false.
Proof.
  rewrite FloatAxioms.leb_spec, !is_nan_false. apply SFleb_number.
Qed.
End FloatOrderMore.

(** The fold of [keep_best] stops at the first of the greatest: everything
    before it is strictly smaller, nothing after it is greater. *)
Lemma keep_best_first (ms pre mid : list MatchResult) (b : MatchResult) :
  PrimFloat.is_nan (confidence b) = false ->
  Forall (fun m => PrimFloat.is_nan (confidence m) = false) ms ->
  Forall (fun m => (confidence m <? confidence b)%float = true) pre ->
  Forall (fun m => (confidence m <=? confidence b)%float = true) mid ->
  exists pre' best post,
    pre ++ b :: mid ++ ms = pre' ++ best :: post
    /\ Forall (fun m => (confidence m <? confidence best)%float = true) pre'
    /\ Forall (fun m => (confidence m <=? confidence best)%float = true) post
    /\ fold_left keep_best ms (Some b) = Some best.
Proof.
  intros Hb Hms. revert pre mid b Hb.
  induction Hms as [|m ms Hm _ IH]; intros pre mid b Hb Hpre Hmid.
  - exists pre, b, mid. rewrite app_nil_r. auto.
  - cbn [fold_left keep_best].
    destruct (confidence b <? confidence m)%float eqn:E.
    + destruct (IH (pre ++ b :: mid) [] m Hm) as (pre' & best & post & Heq & H1 & H2 & H3).
      * apply Forall_app. split; [|constructor].
        -- eapply Forall_impl; [exact Hpre|]. cbn. intros a Ha.
           eapply ltb_trans; eassumption.
        -- exact E.
        -- eapply Forall_impl; [exact Hmid|]. cbn. intros a Ha.
           eapply leb_ltb_trans; eassumption.
      * constructor.
      * exists pre', best, post. repeat split; auto.
        rewrite <- Heq. cbn [app]. now rewrite <- !app_assoc.
    + destruct (IH pre (mid ++ [m]) b Hb Hpre) as (pre' & best & post & Heq & H1 & H2 & H3).
      * apply Forall_app. split; [assumption|]. constructor; [|constructor].
        now apply ltb_false_leb.
      * exists pre', best, post. repeat split; auto.
        rewrite <- Heq. now rewrite <- !app_assoc.
Qed.

Section MatchTemplateMore.
Context `{Cv2}.

(** X6.  Whatever the scales and whatever OpenCV reports, a result that
    [match_template] returns meets the threshold; so neither a NaN
    confidence nor a NaN threshold ever yields a match. *)
Theorem match_template_result_meets_threshold (scr tpl : ndarray)
    (thresh : float) (scales : list float) (b : MatchResult) :
  match_template scr tpl thresh scales = Ok (Some b) ->
  (thresh <=? confidence b)%float = true
  /\ PrimFloat.is_nan (confidence b) = false
  /\ PrimFloat.is_nan thresh = false.
Proof.
  unfold match_template, shape, mbind, except_bind.
  destruct (match_template_loop _ _ _ _ _ _) as [[b0|]|e]; cbn [ebind];
    try discriminate.
  destruct (thresh <=? confidence b0)%float eqn:E; [|discriminate].
  intros [= <-]. split; [assumption|].
  destruct (leb_number _ _ E). auto.
Qed.

(** X7.  Ties go to the scale tried first: on measured scales the result
    is the first measurement of greatest confidence, every earlier one being
    strictly below it and no later one above it. *)
Theorem match_template_first_max_wins (scr tpl : ndarray) (thresh : float)
    (scales : list float) (ms : list MatchResult) :
  scales <> [] ->
  Forall2 (measured scr tpl) scales ms ->
  exists pre best post,
    ms = pre ++ best :: post
    /\ Forall (fun m => (confidence m <? confidence best)%float = true) pre
    /\ Forall (fun m => (confidence m <=? confidence best)%float = true) post
    /\ match_template scr tpl thresh scales =
         Ok (if (thresh <=? confidence best)%float then Some best else None).
Proof.
  intros Hne Hms.
  pose proof (measured_number _ _ _ _ Hms) as Hnum.
  rewrite (match_template_measured _ _ _ _ _ Hms).
  destruct Hms as [|s m scales ms _ _]; [congruence|].
  apply Forall_cons in Hnum as [Hm Hnum].
  destruct (keep_best_first ms [] [] m Hm Hnum) as (pre & best & post & Heq & H1 & H2 & H3);
    [constructor | constructor |].
  exists pre, best, post. cbn [fold_left keep_best]. rewrite H3.
  repeat split; auto.
Qed.
End MatchTemplateMore.

(** X8.  The point [tap_locator] taps lies inside the box it was computed
    from, for a box of positive width and height. *)
Theorem center_of_inside_box (x y w h : Z) (c : float) :
  0 < w -> 0 < h ->
  x <= (center_of (x, y, w, h, c)).1 < x + w
  /\ y <= (center_of (x, y, w, h, c)).2 < y + h.
Proof.
  intros Hw Hh. cbn [center_of fst snd].
  pose proof (Z.div_mod w 2 ltac:(lia)).
  pose proof (Z.mod_pos_bound w 2 ltac:(lia)).
  pose proof (Z.div_mod h 2 ltac:(lia)).
  pose proof (Z.mod_pos_bound h 2 ltac:(lia)). lia.
Qed.

(* ===================================================================== *)
(** ** More on the locator resolver and the action driver *)
(* ===================================================================== *)

Section ResolverMore.
Context {PS : Type} `{Cv2} `{PngSource PS} `{Timing PS}.

Lemma time_sleep_shell (d : Q) (w w' : World PS) r :
  time_sleep d w = (r, w') -> shell w' = shell w /\ ps w' = ps w.
Proof.
  unfold time_sleep. destruct (Qlt_le_dec d 0); now intros [= _ <-].
Qed.

Lemma sleep_if_shell (d : Q) (w w' : World PS) r :
  sleep_if d w = (r, w') -> shell w' = shell w /\ ps w' = ps w.
Proof.
  unfold sleep_if. destruct (Qeq_bool d 0); [now intros [= _ <-]|].
  apply time_sleep_shell.
Qed.

Lemma wait_and_find_loop_shell (fuel : nat) (cfg : UiPack) (loc : Locator)
    (t0 timeout poll : Q) :
  forall (w w' : World PS) r,
    wait_and_find_loop fuel cfg loc t0 timeout poll w = (r, w') ->
    shell w' = shell w.
Proof.
  induction fuel as [|fuel IH]; intros w w' r.
  - cbn. now intros [= _ <-].
  - cbn [wait_and_find_loop]. io_unfold. unfold time_time.
    destruct (Qlt_le_dec _ _); [|now intros [= _ <-]].
    destruct (_next_frame (S fuel) w) as [[frame|e|] w1] eqn:Ef;
      pose proof (next_frame_shell _ _ _ _ Ef) as Hs1;
      try (intros [= _ <-]; assumption).
    unfold compute.
    destruct (find_locator cfg loc frame) as [[hit|]|e]; cbn [of_except];
      try (intros [= _ <-]; cbn; assumption).
    destruct (time_sleep poll (elapse (match_time frame) w1)) as [[[]|e|] w2] eqn:Es;
      apply time_sleep_shell in Es as [Hs2 _]; cbn in Hs2;
      try (intros [= _ <-]; congruence).
    intros Hrec. apply IH in Hrec. congruence.
Qed.

Lemma wait_and_find_shell (fuel : nat) (cfg : UiPack) (loc : Locator)
    (timeout poll : Q) (w w' : World PS) r :
  wait_and_find fuel cfg loc timeout poll w = (r, w') -> shell w' = shell w.
Proof.
  unfold wait_and_find. io_unfold. unfold time_time.
  apply wait_and_find_loop_shell.
Qed.

(** The frame and the hit that the loop returns belong together. *)
Lemma wait_and_find_loop_sound (fuel : nat) (cfg : UiPack) (loc : Locator)
    (t0 timeout poll : Q) :
  forall (w w' : World PS) hit frame,
    wait_and_find_loop fuel cfg loc t0 timeout poll w
      = (Return (hit, frame), w') ->
    match hit, frame with
    | Some hit, Some frame => find_locator cfg loc frame = Ok (Some hit)
    | None, None => True
    | _, _ => False
    end.
Proof.
  induction fuel as [|fuel IH]; intros w w' hit frame; [discriminate|].
  cbn [wait_and_find_loop]. io_unfold. unfold time_time.
  destruct (Qlt_le_dec _ _); [|now intros [= <- <- _]].
  destruct (_next_frame (S fuel) w) as [[fr|e|] w1]; try discriminate.
  unfold compute.
  destruct (find_locator cfg loc fr) as [[h|]|e] eqn:Ef; cbn [of_except];
    try discriminate.
  - now intros [= <- <- _].
  - destruct (time_sleep poll _) as [[[]|e|] w2]; try discriminate.
    apply IH.
Qed.

(** X9.  [wait_and_find] only looks: however the call ends (a hit, a
    timeout, an exception, or still polling), nothing has been written to
    the shell. *)
Theorem wait_and_find_sends_nothing (fuel : nat) (cfg : UiPack)
    (loc : Locator) (timeout poll : Q) (w w' : World PS) r :
  wait_and_find fuel cfg loc timeout poll w = (r, w') -> shell w' = shell w.
Proof. apply wait_and_find_shell. Qed.

(** X10.  What [wait_and_find] returns is either [(None, None)] or a hit
    together with the frame it was found in: matching the locator against
    the returned frame gives the returned hit, whose confidence is at least
    the locator's threshold. *)
Theorem wait_and_find_hit_sound (fuel : nat) (cfg : UiPack) (loc : Locator)
    (timeout poll : Q) (w w' : World PS) hit frame :
  wait_and_find fuel cfg loc timeout poll w = (Return (hit, frame), w') ->
  (hit = None /\ frame = None)
  \/ exists h fr,
       hit = Some h /\ frame = Some fr
       /\ find_locator cfg loc fr = Ok (Some h)
       /\ (thresh loc <=? confidence h)%float = true.
Proof.
  unfold wait_and_find. io_unfold. unfold time_time. intros Hrun.
  apply wait_and_find_loop_sound in Hrun.
  destruct hit as [h|], frame as [fr|]; try contradiction; [right | now left].
  exists h, fr. repeat split; auto.
  revert Hrun. unfold find_locator, mbind, except_bind.
  destruct (load_template cfg loc) as [tpl|e]; cbn [ebind]; [|discriminate].
  unfold match_template, shape, mbind, except_bind.
  destruct (match_template_loop _ _ _ _ _ _) as [[b0|]|e]; cbn [ebind];
    try discriminate.
  destruct (thresh loc <=? confidence b0)%float eqn:E; [|discriminate].
  now intros [= <-].
Qed.

(** X11.  With a timeout of zero or less the loop body never runs: the
    call returns [(None, None)] at once, having pulled no frame, loaded no
    template and let no time pass. *)
Theorem wait_and_find_no_time (fuel : nat) (cfg : UiPack) (loc : Locator)
    (timeout poll : Q) (w : World PS) :
  (timeout <= 0)%Q ->
  wait_and_find (S fuel) cfg loc timeout poll w = (Return (None, None), w).
Proof.
  intros Ht. unfold wait_and_find. cbn [wait_and_find_loop]. io_unfold.
  unfold time_time. destruct (Qlt_le_dec _ _); [lra | reflexivity].
Qed.

(** X12.  A locator whose template file cannot be read is not a miss: as
    soon as a frame has been pulled, [wait_and_find] raises
    [FileNotFoundError] instead of polling until the timeout. *)
Theorem wait_and_find_missing_template (fuel : nat) (cfg : UiPack)
    (loc : Locator) (timeout poll : Q) (w w1 : World PS) (frame : ndarray) :
  (0 < timeout)%Q ->
  _next_frame (S fuel) w = (Return frame, w1) ->
  imread (_tpl_path cfg loc) = None ->
  wait_and_find (S fuel) cfg loc timeout poll w
    = (Raise FileNotFoundError, elapse (match_time frame) w1).
Proof.
  intros Ht Hframe Hfile. unfold wait_and_find.
  cbn [wait_and_find_loop]. io_unfold. unfold time_time.
  destruct (Qlt_le_dec _ _); [|lra].
  rewrite Hframe. unfold compute, find_locator, load_template.
  now rewrite Hfile.
Qed.

(** X13.  [exists] is resolve-only: it answers [True] exactly when
    [wait_and_find] returns a hit, and however it ends it has written
    nothing to the shell. *)
Theorem exists_resolves_only (fuel : nat) (cfg : UiPack) (loc : Locator)
    (timeout : Q) (w w' : World PS) r :
  exists_ fuel cfg loc timeout w = (r, w') ->
  shell w' = shell w
  /\ (forall b, r = Return b ->
        exists hit frame,
          wait_and_find fuel cfg loc timeout (12 # 100) w
            = (Return (hit, frame), w')
          /\ (b = true <-> hit <> None)).
Proof.
  unfold exists_. io_unfold.
  destruct (wait_and_find fuel cfg loc timeout (12 # 100) w)
    as [[[hit frame]|e|] w1] eqn:Ef;
    pose proof (wait_and_find_shell _ _ _ _ _ _ _ _ Ef) as Hs;
    intros [= <- <-]; (split; [assumption|]); intros b [= <-].
  exists hit, frame. split; [reflexivity|].
  destruct hit; split; congruence.
Qed.

(** X14.  [tap_locator] writes at most one line, and it is a tap: however
    the call ends, the shell is as before or one [input tap] line longer;
    after [False] it is as before, after [True] one line longer. *)
Theorem tap_locator_at_most_one_tap (fuel : nat) (cfg : UiPack)
    (loc : Locator) (wait_after : Q) (w w' : World PS) r :
  tap_locator fuel cfg loc wait_after w = (r, w') ->
  (shell w' = shell w /\ r <> Return true)
  \/ (exists x y : Z,
        shell w' = shell w ++ ["input tap " +:+ pretty x +:+ " " +:+ pretty y]
        /\ r <> Return false).
Proof.
  unfold tap_locator. io_unfold.
  destruct (wait_and_find fuel cfg loc 3 (12 # 100) w)
    as [[[[hit|] frame]|e|] w1] eqn:Ef;
    pose proof (wait_and_find_shell _ _ _ _ _ _ _ _ Ef) as Hs;
    try (intros [= <- <-]; left; split; [assumption | discriminate]).
  destruct hit as [[[[x y] wd] ht] c]. cbn [center_of].
  unfold tap, send. cbn beta iota.
  destruct (sleep_if wait_after _) as [[[]|e|] w2] eqn:Es;
    apply sleep_if_shell in Es as [Hs2 _]; cbn in Hs2;
    intros [= <- <-]; right; exists (x + wd `div` 2), (y + ht `div` 2);
    (split; [congruence | discriminate]).
Qed.

(** X15.  [single_tap_center] taps at half the width and 65 % of the
    height of the frame it has just pulled: for a non-negative
    [wait_after] it writes that one line, waits and returns. *)
Theorem single_tap_center_taps_once (fuel : nat) (wait_after : Q)
    (w w1 : World PS) (frame : ndarray) (hf : float) (y : Z) :
  _next_frame fuel w = (Return frame, w1) ->
  int_mul_float (rows frame) 0.65 = Ok hf ->
  int_of_float hf = Ok y ->
  (0 <= wait_after)%Q ->
  exists w2,
    single_tap_center fuel wait_after w = (Return tt, w2)
    /\ shell w2 = shell w1 ++
         ["input tap " +:+ pretty (cols frame `div` 2) +:+ " " +:+ pretty y]
    /\ ps w2 = ps w1
    /\ (clock w2 == clock w1 + wait_after)%Q.
Proof.
  intros Hframe Hmul Hint Hw. unfold single_tap_center. io_unfold.
  rewrite Hframe. unfold shape, lift, mbind, except_bind.
  rewrite Hmul. cbn [ebind]. rewrite Hint. cbn [of_except].
  unfold tap, send. cbn beta iota.
  destruct (sleep_if_nonneg wait_after
              (MkWorld (ps w1)
                 (shell w1 ++
                    ["input tap " +:+ pretty (cols frame `div` 2) +:+ " "
                       +:+ pretty y])
                 (clock w1)) Hw) as (w2 & Hs & Hps & Hsh & Hck).
  exists w2. rewrite Hs. auto.
Qed.
End ResolverMore.

Section ResolverMore2.
Context {PS : Type} `{Cv2} `{PngSource PS} `{Timing PS}.

(** X19.  [default_pack] configures one swipe: once a frame has been
    pulled, [swipe_by_name] on the default configuration raises [KeyError]
    for every name but ["next_pokemon"]. *)
Theorem swipe_by_name_default_pack (fuel : nat) (dir key : string)
    (wait_after : Q) (w w1 : World PS) (frame : ndarray) :
  _next_frame fuel w = (Return frame, w1) ->
  key <> "next_pokemon" ->
  swipe_by_name fuel (default_pack dir) key wait_after w = (Raise KeyError, w1).
Proof.
  intros Hframe Hkey. unfold swipe_by_name. io_unfold. rewrite Hframe.
  cbn [default_pack swipes].
  now rewrite lookup_singleton_ne by congruence.
Qed.

(** X20.  A hit in the first frame is returned at once: the call takes the
    time of one pull and one match, and does not sleep. *)
Theorem wait_and_find_first_frame (fuel : nat) (cfg : UiPack) (loc : Locator)
    (timeout poll : Q) (w w1 : World PS) (frame : ndarray)
    (hit : MatchResult) :
  (0 < timeout)%Q ->
  _next_frame (S fuel) w = (Return frame, w1) ->
  find_locator cfg loc frame = Ok (Some hit) ->
  wait_and_find (S fuel) cfg loc timeout poll w
    = (Return (Some hit, Some frame), elapse (match_time frame) w1).
Proof.
  intros Ht Hframe Hhit. unfold wait_and_find.
  cbn [wait_and_find_loop]. io_unfold. unfold time_time.
  destruct (Qlt_le_dec _ _); [|lra].
  rewrite Hframe. unfold compute. now rewrite Hhit.
Qed.
End ResolverMore2.

(* ===================================================================== *)
(** ** The end-of-list probe *)
(* ===================================================================== *)

Section ScrollMore.
Context {PS : Type} `{Cv2} `{Numpy} `{Hashlib} `{PngSource PS} `{Timing PS}.

(** A completed [swipe_by_name] has written its one line. *)
Lemma swipe_by_name_returned (fuel : nat) (cfg : UiPack) (key : string)
    (wait_after : Q) (w w' : World PS) :
  swipe_by_name fuel cfg key wait_after w = (Return tt, w') ->
  exists sx sy ex ey dur : Z,
    shell w' = shell w ++
      ["input swipe " +:+ pretty sx +:+ " " +:+ pretty sy +:+ " "
         +:+ pretty ex +:+ " " +:+ pretty ey +:+ " " +:+ pretty dur].
Proof.
  unfold swipe_by_name. io_unfold.
  destruct (_next_frame fuel w) as [[frame|e|] w1] eqn:Ef; try discriminate.
  apply next_frame_shell in Ef.
  destruct (swipes cfg !! key) as [sw|]; [|discriminate].
  unfold lift.
  destruct (_abs_points_from_swipe frame sw) as [[[[sx sy] ex] ey]|e];
    cbn [of_except]; [|discriminate].
  unfold swipe, send. cbn beta iota.
  destruct (sleep_if wait_after _) as [[[]|e|] w2] eqn:Es; try discriminate.
  apply sleep_if_shell in Es as [Hs _]. cbn in Hs. intros [= <-].
  exists sx, sy, ex, ey, (duration_ms sw). congruence.
Qed.

(** X16.  The probe is not free: whenever [end_of_list_after_swipe]
    returns an answer, [True] or [False], it has written exactly one line to
    the shell, a swipe. *)
Theorem end_of_list_swipes_once (fuel : nat) (cfg : ListPack) (key : string)
    (w w' : World PS) (b : bool) :
  end_of_list_after_swipe fuel cfg key w = (Return b, w') ->
  exists sx sy ex ey dur : Z,
    shell w' = shell w ++
      ["input swipe " +:+ pretty sx +:+ " " +:+ pretty sy +:+ " "
         +:+ pretty ex +:+ " " +:+ pretty ey +:+ " " +:+ pretty dur].
Proof.
  unfold end_of_list_after_swipe. io_unfold.
  destruct (_next_frame fuel w) as [[f1|e|] w1] eqn:E1; try discriminate.
  apply next_frame_shell in E1. unfold lift at 1.
  destruct (signatures_from_frame cfg f1) as [before|e]; cbn [of_except];
    [|discriminate].
  destruct (swipe_by_name fuel cfg key _ w1) as [[[]|e|] w2] eqn:E2;
    try discriminate.
  apply swipe_by_name_returned in E2 as (sx & sy & ex & ey & dur & Hs2).
  destruct (_next_frame fuel w2) as [[f2|e|] w3] eqn:E3; try discriminate.
  apply next_frame_shell in E3. unfold lift.
  destruct (signatures_from_frame cfg f2) as [after|e]; cbn [of_except];
    [|discriminate].
  intros [= _ <-]. exists sx, sy, ex, ey, dur. congruence.
Qed.

(** X18.  With a name that is not configured the probe raises [KeyError]
    only after it has pulled two frames, the one it takes the signatures of
    and the one [swipe_by_name] pulls before it looks the name up; nothing
    is written to the shell. *)
Theorem end_of_list_unknown_key (fuel : nat) (cfg : ListPack) (key : string)
    (w w1 w2 : World PS) (f1 f2 : ndarray)
    (sigs : IoFast.bytes * IoFast.bytes) :
  swipes cfg !! key = None ->
  _next_frame fuel w = (Return f1, w1) ->
  signatures_from_frame cfg f1 = Ok sigs ->
  _next_frame fuel w1 = (Return f2, w2) ->
  end_of_list_after_swipe fuel cfg key w = (Raise KeyError, w2)
  /\ shell w2 = shell w.
Proof.
  intros Hkey E1 Hsig E2. split.
  - unfold end_of_list_after_swipe. io_unfold.
    rewrite E1. unfold lift. rewrite Hsig. cbn [of_except].
    unfold swipe_by_name. io_unfold. now rewrite E2, Hkey.
  - apply next_frame_shell in E1, E2. congruence.
Qed.
End ScrollMore.

Section TransportBench.
Import IoFast Bench Bench2.

Lemma cut_chunk_final : final_chunk cut_chunk.
Proof. repeat split; cbn; first [discriminate | lia]. Qed.

Lemma next_png_accepts_short_checksum_witness :
  Forall payload_chunk []
  /\ final_chunk cut_chunk
  /\ (length (chunk_crc cut_chunk) < 4)%nat
  /\ next_png (framed [] cut_chunk) = (Some (framed [] cut_chunk), []).
Proof.
  assert (Hcs : Forall payload_chunk []) by constructor.
  assert (Hshort : (length (chunk_crc cut_chunk) < 4)%nat) by (cbn; lia).
  exact (conj Hcs (conj cut_chunk_final (conj Hshort
           (next_png_accepts_short_checksum [] cut_chunk Hcs cut_chunk_final
              Hshort)))).
Defined.

Lemma next_png_bad_signature_witness :
  take 8 (x00 :: one_pixel_png) <> PNG_SIG
  /\ next_png (x00 :: one_pixel_png) = (None, drop 8 (x00 :: one_pixel_png)).
Proof.
  assert (Hsig : take 8 (x00 :: one_pixel_png) <> PNG_SIG) by discriminate.
  exact (conj Hsig (next_png_bad_signature (x00 :: one_pixel_png) Hsig)).
Defined.

Lemma next_png_progress_witness :
  one_pixel_png <> []
  /\ (length (next_png one_pixel_png).2 < length one_pixel_png)%nat.
Proof.
  assert (Hne : one_pixel_png <> []) by discriminate.
  exact (conj Hne (next_png_progress one_pixel_png Hne)).
Defined.

Lemma one_pixel_file_ok : png_file one_pixel_file.
Proof.
  split; [|reflexivity].
  repeat constructor; cbn; first [lia | discriminate].
Qed.

Lemma next_frame_spins_on_png_files_witness :
  Forall png_file [one_pixel_file; one_pixel_file]
  /\ (@_next_frame _ cv2 PngStream instant 5
        (MkWorld
           (concat (map (fun f => png_record f.1 f.2)
                      [one_pixel_file; one_pixel_file])) [] 0)).1
     = Running.
Proof.
  assert (Hfiles : Forall png_file [one_pixel_file; one_pixel_file])
    by (repeat (apply Forall_cons_2; [apply one_pixel_file_ok|]); apply List.Forall_nil).
  exact (conj Hfiles
           (@next_frame_spins_on_png_files cv2 instant
              [one_pixel_file; one_pixel_file] 5 [] 0 Hfiles)).
Defined.
End TransportBench.

Section MatcherBench.
Import Bench Bench2.

Lemma match_template_result_meets_threshold_witness :
  match_template button_screen button_tpl 0.86 default_scales
    = Ok (Some button_hit)
  /\ (0.86 <=? confidence button_hit)%float = true
  /\ PrimFloat.is_nan (confidence button_hit) = false
  /\ PrimFloat.is_nan 0.86 = false.
Proof.
  assert (Hrun : match_template button_screen button_tpl 0.86 default_scales
                 = Ok (Some button_hit))
    by (vm_compute; reflexivity).
  exact (conj Hrun
           (match_template_result_meets_threshold _ _ _ _ _ Hrun)).
Defined.

Lemma blank_measured_ok :
  Forall2 (measured blank_screen button_tpl) default_scales blank_measured.
Proof. repeat constructor; eexists; repeat split; vm_compute; reflexivity. Qed.

Lemma match_template_first_max_wins_witness :
  default_scales <> []
  /\ Forall2 (measured blank_screen button_tpl) default_scales blank_measured
  /\ exists pre best post,
       blank_measured = pre ++ best :: post
       /\ Forall (fun m => (confidence m <? confidence best)%float = true) pre
       /\ Forall (fun m => (confidence m <=? confidence best)%float = true) post
       /\ match_template blank_screen button_tpl 0.05 default_scales =
            Ok (if (0.05 <=? confidence best)%float then Some best else None).
Proof.
  assert (Hne : default_scales <> []) by discriminate.
  exact (conj Hne (conj blank_measured_ok
           (match_template_first_max_wins _ _ 0.05%float _ _ Hne
              blank_measured_ok))).
Defined.

(** On the blank screen all five scales tie, and the box is that of the
    first scale, 1.0. *)
Example match_template_tie :
  match_template blank_screen button_tpl 0.05 default_scales
    = Ok (Some (0, 0, 60, 40, 0.1%float)).
Proof. vm_compute. reflexivity. Qed.

Lemma center_of_inside_box_witness :
  0 < 5 /\ 0 < 7
  /\ 10 <= (center_of (10, 20, 5, 7, 0.9%float)).1 < 10 + 5
  /\ 20 <= (center_of (10, 20, 5, 7, 0.9%float)).2 < 20 + 7.
Proof.
  assert (Hw : 0 < 5) by lia. assert (Hh : 0 < 7) by lia.
  exact (conj Hw (conj Hh (center_of_inside_box 10 20 5 7 0.9%float Hw Hh))).
Defined.
End MatcherBench.

Section ResolverBench.
Import IoFast Bench Bench2.

Lemma wait_and_find_sends_nothing_witness :
  @wait_and_find _ cv2 PngStream instant 5 cfg hamburger 3 (12 # 100)
    two_frames = (find_run.1, find_run.2)
  /\ shell find_run.2 = shell two_frames.
Proof.
  assert (Hrun : @wait_and_find _ cv2 PngStream instant 5 cfg hamburger 3
                   (12 # 100) two_frames = (find_run.1, find_run.2))
    by (vm_compute; reflexivity).
  exact (conj Hrun (wait_and_find_sends_nothing _ _ _ _ _ _ _ _ Hrun)).
Defined.

Lemma wait_and_find_hit_sound_witness :
  @wait_and_find _ cv2 PngStream instant 5 cfg hamburger 3 (12 # 100)
    two_frames = (Return (Some button_hit, Some button_screen), find_run.2)
  /\ ((Some button_hit = None /\ Some button_screen = None)
      \/ exists h fr,
           Some button_hit = Some h /\ Some button_screen = Some fr
           /\ find_locator cfg hamburger fr = Ok (Some h)
           /\ (thresh hamburger <=? confidence h)%float = true).
Proof.
  assert (Hrun : @wait_and_find _ cv2 PngStream instant 5 cfg hamburger 3
                   (12 # 100) two_frames
                 = (Return (Some button_hit, Some button_screen), find_run.2))
    by (vm_compute; reflexivity).
  exact (conj Hrun (wait_and_find_hit_sound _ _ _ _ _ _ _ _ _ Hrun)).
Defined.

Lemma wait_and_find_no_time_witness :
  (0 <= 0)%Q
  /\ @wait_and_find _ cv2 PngStream instant 1 cfg hamburger 0 (12 # 100)
       two_frames = (Return (None, None), two_frames).
Proof.
  assert (Ht : (0 <= 0)%Q) by (vm_compute; discriminate).
  exact (conj Ht (@wait_and_find_no_time _ cv2 PngStream instant 0 cfg
                    hamburger 0 (12 # 100) two_frames Ht)).
Defined.

Lemma two_frames_first :
  @_next_frame _ cv2 PngStream instant 1 two_frames
    = (Return blank_screen, MkWorld button_png [] (0 + 0)).
Proof. vm_compute. reflexivity. Qed.

Lemma wait_and_find_missing_template_witness :
  (0 < 3)%Q
  /\ @_next_frame _ cv2 PngStream instant 1 two_frames
       = (Return blank_screen, MkWorld button_png [] (0 + 0))
  /\ imread (_tpl_path cfg missing) = None
  /\ @wait_and_find _ cv2 PngStream instant 1 cfg missing 3 (12 # 100)
       two_frames
     = (Raise FileNotFoundError,
        elapse (@match_time IoFast.bytes instant blank_screen)
          (MkWorld button_png [] (0 + 0))).
Proof.
  assert (Ht : (0 < 3)%Q) by (vm_compute; reflexivity).
  assert (Hfile : imread (_tpl_path cfg missing) = None)
    by (vm_compute; reflexivity).
  exact (conj Ht (conj two_frames_first (conj Hfile
           (@wait_and_find_missing_template _ cv2 PngStream instant 0 cfg
              missing 3 (12 # 100) two_frames _ _ Ht two_frames_first
              Hfile)))).
Defined.

Lemma exists_resolves_only_witness :
  @exists_ _ cv2 PngStream instant 5 cfg hamburger (12 # 10) two_frames
    = (exists_run.1, exists_run.2)
  /\ shell exists_run.2 = shell two_frames
  /\ (forall b, exists_run.1 = Return b ->
        exists hit frame,
          @wait_and_find _ cv2 PngStream instant 5 cfg hamburger (12 # 10)
            (12 # 100) two_frames = (Return (hit, frame), exists_run.2)
          /\ (b = true <-> hit <> None)).
Proof.
  assert (Hrun : @exists_ _ cv2 PngStream instant 5 cfg hamburger (12 # 10)
                   two_frames = (exists_run.1, exists_run.2))
    by (vm_compute; reflexivity).
  exact (conj Hrun (exists_resolves_only _ _ _ _ _ _ _ Hrun)).
Defined.

(** The run of [exists] above found the button in the second frame. *)
Example exists_run_true : exists_run.1 = Return true.
Proof. vm_compute. reflexivity. Qed.

Lemma tap_locator_at_most_one_tap_witness :
  @tap_locator _ cv2 PngStream instant 5 cfg hamburger (1 # 2) two_frames
    = (tap_run.1, tap_run.2)
  /\ ((shell tap_run.2 = shell two_frames /\ tap_run.1 <> Return true)
      \/ (exists x y : Z,
            shell tap_run.2 = shell two_frames ++
              ["input tap " +:+ pretty x +:+ " " +:+ pretty y]
            /\ tap_run.1 <> Return false)).
Proof.
  assert (Hrun : @tap_locator _ cv2 PngStream instant 5 cfg hamburger (1 # 2)
                   two_frames = (tap_run.1, tap_run.2))
    by (vm_compute; reflexivity).
  exact (conj Hrun (tap_locator_at_most_one_tap _ _ _ _ _ _ _ Hrun)).
Defined.

Lemma single_tap_center_taps_once_witness :
  @_next_frame _ cv2 PngStream instant 1 two_frames
    = (Return blank_screen, MkWorld button_png [] (0 + 0))
  /\ int_mul_float (rows blank_screen) 0.65 = Ok 1560%float
  /\ int_of_float 1560 = Ok 1560
  /\ (0 <= 1 # 2)%Q
  /\ exists w2,
       @single_tap_center _ cv2 PngStream instant 1 (1 # 2) two_frames
         = (Return tt, w2)
       /\ shell w2 = [] ++
            ["input tap " +:+ pretty (cols blank_screen `div` 2) +:+ " "
               +:+ pretty 1560]
       /\ ps w2 = button_png
       /\ (clock w2 == 0 + 0 + (1 # 2))%Q.
Proof.
  assert (Hmul : int_mul_float (rows blank_screen) 0.65 = Ok 1560%float)
    by (vm_compute; reflexivity).
  assert (Hint : int_of_float 1560 = Ok 1560) by (vm_compute; reflexivity).
  assert (Hw : (0 <= 1 # 2)%Q) by (vm_compute; discriminate).
  exact (conj two_frames_first (conj Hmul (conj Hint (conj Hw
           (@single_tap_center_taps_once _ cv2 PngStream instant 1 (1 # 2)
              two_frames _ _ _ _ two_frames_first Hmul Hint Hw))))).
Defined.

Lemma swipe_by_name_default_pack_witness :
  @_next_frame _ cv2 PngStream instant 1 two_frames
    = (Return blank_screen, MkWorld button_png [] (0 + 0))
  /\ "back" <> "next_pokemon"
  /\ @swipe_by_name _ cv2 PngStream instant 1 (default_pack "./assets") "back"
       (1 # 2) two_frames
     = (Raise KeyError, MkWorld button_png [] (0 + 0)).
Proof.
  assert (Hkey : "back" <> "next_pokemon") by discriminate.
  exact (conj two_frames_first (conj Hkey
           (@swipe_by_name_default_pack _ cv2 PngStream instant 1 "./assets"
              "back" (1 # 2) two_frames _ _ two_frames_first Hkey))).
Defined.

Lemma wait_and_find_first_frame_witness :
  (0 < 3)%Q
  /\ @_next_frame _ cv2 PngStream instant 1 (MkWorld button_png [] 0)
       = (Return button_screen, MkWorld [] [] (0 + 0))
  /\ find_locator cfg hamburger button_screen = Ok (Some button_hit)
  /\ @wait_and_find _ cv2 PngStream instant 1 cfg hamburger 3 (12 # 100)
       (MkWorld button_png [] 0)
     = (Return (Some button_hit, Some button_screen),
        elapse (@match_time IoFast.bytes instant button_screen) (MkWorld [] [] (0 + 0))).
Proof.
  assert (Ht : (0 < 3)%Q) by (vm_compute; reflexivity).
  assert (Hframe : @_next_frame _ cv2 PngStream instant 1
                     (MkWorld button_png [] 0)
                   = (Return button_screen, MkWorld [] [] (0 + 0)))
    by (vm_compute; reflexivity).
  assert (Hhit : find_locator cfg hamburger button_screen = Ok (Some button_hit))
    by (vm_compute; reflexivity).
  exact (conj Ht (conj Hframe (conj Hhit
           (@wait_and_find_first_frame _ cv2 PngStream instant 0 cfg hamburger
              3 (12 # 100) _ _ _ _ Ht Hframe Hhit)))).
Defined.
End ResolverBench.

Section ScrollBench.
Import IoFast Bench Bench2.

Lemma end_of_list_swipes_once_witness :
  @end_of_list_after_swipe _ cv2 numpy hashlib PngStream instant 1 list_cfg
    "next_pokemon" three_blank = (Return true, probe_run.2)
  /\ exists sx sy ex ey dur : Z,
       shell probe_run.2 = shell three_blank ++
         ["input swipe " +:+ pretty sx +:+ " " +:+ pretty sy +:+ " "
            +:+ pretty ex +:+ " " +:+ pretty ey +:+ " " +:+ pretty dur].
Proof.
  assert (Hrun : @end_of_list_after_swipe _ cv2 numpy hashlib PngStream instant
                   1 list_cfg "next_pokemon" three_blank
                 = (Return true, probe_run.2))
    by (vm_compute; reflexivity).
  exact (conj Hrun (end_of_list_swipes_once _ _ _ _ _ _ Hrun)).
Defined.

(** The line of that run. *)
Example probe_run_shell :
  shell probe_run.2 = ["input swipe 918 1200 216 1200 280"].
Proof. vm_compute. reflexivity. Qed.

Lemma three_blank_first :
  @_next_frame _ cv2 PngStream instant 1 three_blank
    = (Return blank_screen, MkWorld (blank_png ++ blank_png) [] (0 + 0)).
Proof. vm_compute. reflexivity. Qed.

Lemma blank_signatures :
  signatures_from_frame list_cfg blank_screen
    = Ok (repeat x00 16, repeat x00 16).
Proof. vm_compute. reflexivity. Qed.

Lemma end_of_list_unknown_key_witness :
  swipes list_cfg !! "no_such_swipe" = None
  /\ @_next_frame _ cv2 PngStream instant 1 three_blank
       = (Return blank_screen, MkWorld (blank_png ++ blank_png) [] (0 + 0))
  /\ signatures_from_frame list_cfg blank_screen
       = Ok (repeat x00 16, repeat x00 16)
  /\ @_next_frame _ cv2 PngStream instant 1
       (MkWorld (blank_png ++ blank_png) [] (0 + 0))
     = (Return blank_screen, MkWorld blank_png [] (0 + 0 + 0))
  /\ @end_of_list_after_swipe _ cv2 numpy hashlib PngStream instant 1 list_cfg
       "no_such_swipe" three_blank
     = (Raise KeyError, MkWorld blank_png [] (0 + 0 + 0))
  /\ shell (MkWorld blank_png [] (0 + 0 + 0)) = shell three_blank.
Proof.
  assert (Hkey : swipes list_cfg !! "no_such_swipe" = None)
    by (vm_compute; reflexivity).
  assert (Hnext :
    @_next_frame _ cv2 PngStream instant 1
      (MkWorld (blank_png ++ blank_png) [] (0 + 0))
    = (Return blank_screen, MkWorld blank_png [] (0 + 0 + 0)))
    by (vm_compute; reflexivity).
  exact (conj Hkey (conj three_blank_first (conj blank_signatures (conj Hnext
           (@end_of_list_unknown_key _ cv2 numpy hashlib PngStream instant 1
              list_cfg "no_such_swipe" three_blank _ _ _ _ _ Hkey
              three_blank_first blank_signatures Hnext))))).
Defined.
End ScrollBench.
